(** * analyze_baseline.py: a shallow embedding and its verified properties

    The program reads every [*.jsonl] file of a directory, decodes one JSON
    value per non-blank line, drops the run-metadata records, normalises the
    status of the others, tallies them and writes a Markdown report.

    Conventions of the embedding.
    - A Python [str] is a list of Unicode code points ([N]).
    - A decoded JSON value is a [json]; a Python [dict] is an association
      list in insertion order with the dict's own update rule (an existing
      key keeps its position, a new key goes last).
    - Code that may raise runs in the error monad [res].
    - What belongs to the interpreter and not to the script is a field of
      [runtime]: [json.loads], which returns a value, raises
      [JSONDecodeError] or raises something else, the case mapping of the
      non-ASCII code points, and [str()] of floats, lists and dicts.
    - What belongs to the machine is a field of [world]: the command line,
      the clock, and every call the script makes to the file system or the
      console, with what it returns and whether it raises instead. *)

From Stdlib Require Import List ZArith NArith Bool Lia String Ascii.
From Stdlib Require Import Permutation Sorted DecimalString.
From Stdlib Require Import Floats.SpecFloat.
Import ListNotations.

Local Open Scope Z_scope.

(** ** Python strings *)

Definition pystr := list N.

(** An ASCII literal as a Python string. *)
Definition lit (s : string) : pystr :=
  map N_of_ascii (list_ascii_of_string s).

Definition str_eqb (a b : pystr) : bool :=
  if list_eq_dec N.eq_dec a b then true else false.

(** [str.__lt__]: lexicographic on code points. *)
Fixpoint str_ltb (a b : pystr) : bool :=
  match a, b with
  | _, [] => false
  | [], _ :: _ => true
  | x :: a', y :: b' =>
      if (x <? y)%N then true
      else if (y <? x)%N then false
      else str_ltb a' b'
  end.

(** [str.isspace] on one code point: general category Zs or bidirectional
    class WS, B or S. *)
Definition is_space (c : N) : bool :=
  ((9 <=? c) && (c <=? 13) || (28 <=? c) && (c <=? 32)
   || (c =? 133) || (c =? 160) || (c =? 5760)
   || (8192 <=? c) && (c <=? 8202)
   || (c =? 8232) || (c =? 8233) || (c =? 8239) || (c =? 8287)
   || (c =? 12288))%N.

Fixpoint lstrip (s : pystr) : pystr :=
  match s with
  | c :: s' => if is_space c then lstrip s' else s
  | [] => []
  end.

Definition rstrip (s : pystr) : pystr := rev (lstrip (rev s)).

(** [str.strip()] *)
Definition strip (s : pystr) : pystr := rstrip (lstrip s).

(** [str.endswith] *)
Definition endswith (s suffix : pystr) : bool :=
  str_eqb (skipn (List.length s - List.length suffix)%nat s) suffix.

(** A lone surrogate, the one kind of code point that UTF-8 refuses. *)
Definition has_surrogate (s : pystr) : bool :=
  existsb (fun c => ((55296 <=? c) && (c <=? 57343))%N) s.

(** [str(n)] for an [int]. *)
Definition str_of_int (z : Z) : pystr :=
  lit (NilZero.string_of_int (Z.to_int z)).

(** ** Decoded JSON values and dicts *)

Definition dict (V : Type) := list (pystr * V).

Fixpoint dict_get {V} (k : pystr) (d : dict V) : option V :=
  match d with
  | [] => None
  | (k', v) :: d' => if str_eqb k k' then Some v else dict_get k d'
  end.

(** [d[k] = v] *)
Fixpoint dict_set {V} (k : pystr) (v : V) (d : dict V) : dict V :=
  match d with
  | [] => [(k, v)]
  | (k', v') :: d' =>
      if str_eqb k k' then (k', v) :: d' else (k', v') :: dict_set k v d'
  end.

(** What [json.loads] returns: [None], [bool], [int], [float], [str],
    [list] and [dict]. *)
#[local] Set Warnings "-register-all".
Inductive json :=
| JNull
| JBool (b : bool)
| JInt (z : Z)
| JFloat (f : spec_float)
| JStr (s : pystr)
| JArr (l : list json)
| JObj (d : dict json).

Definition is_dict (v : json) : bool :=
  match v with JObj _ => true | _ => false end.

(** ** Exceptions *)

Inductive exn :=
| AttributeError (obj : json) (attr : pystr)
| KeyError (key : json)
| TypeError (obj : json)
| UnicodeEncodeError (text : pystr)
| RuntimeError (msg : pystr)
| OSError (msg : pystr).

Inductive res (A : Type) :=
| Ret (a : A)
| Raise (e : exn).
Arguments Ret {A} a.
Arguments Raise {A} e.

Definition bind {A B} (c : res A) (k : A -> res B) : res B :=
  match c with
  | Ret a => k a
  | Raise e => Raise e
  end.

Notation "x <- c ;; k" := (bind c (fun x => k))
  (at level 61, c at next level, right associativity).
Notation "' p <- c ;; k" := (bind c (fun p => k))
  (at level 61, p pattern, c at next level, right associativity).

(** [e.get(key, default)]: only a dict has the method. *)
Definition py_get (e : json) (key : pystr) (default : json) : res json :=
  match e with
  | JObj d => Ret (match dict_get key d with Some v => v | None => default end)
  | _ => Raise (AttributeError e (lit "get"))
  end.

(** [e[key]] for a string key. *)
Definition py_getitem (e : json) (key : pystr) : res json :=
  match e with
  | JObj d =>
      match dict_get key d with
      | Some v => Ret v
      | None => Raise (KeyError (JStr key))
      end
  | _ => Raise (TypeError e)
  end.

(** [e[key] = v] for a string key. *)
Definition py_setitem (e : json) (key : pystr) (v : json) : res json :=
  match e with
  | JObj d => Ret (JObj (dict_set key v d))
  | _ => Raise (TypeError e)
  end.

(** ** The interpreter *)

(** What [json.loads] does with a text: it returns a value, raises
    [json.JSONDecodeError], or raises another exception ([ValueError] on an
    integer of too many digits, [RecursionError] on deep nesting), each given
    by its message. *)
Inductive loads_result :=
| Loaded (obj : json)
| JSONDecodeError (msg : pystr)
| OtherError (msg : pystr).

Record runtime := {
  (** [json.loads] on one stripped line *)
  json_loads : pystr -> loads_result;
  (** [str.upper] on one code point above 127 (it may give several) *)
  upper_ext : N -> pystr;
  (** [str()] of a float, a list or a dict *)
  str_ext : json -> pystr
}.

(** ** The machine *)

(** Reading one file: [open] raises, or the file object yields lines and
    then either ends or raises. *)
Inductive file_read :=
| OpenError (msg : pystr)
| Stream (lines : list pystr) (failure : option pystr).

(** Each call that can raise has two fields: what it returns, and the
    exception it raises instead, if any (the returned value is then not
    looked at). *)
Record world := {
  argv : list pystr;
  (** [Path(p).expanduser().resolve()] as text *)
  resolve : pystr -> pystr;
  resolve_raises : pystr -> option exn;
  (** [p.exists()] *)
  path_exists : pystr -> bool;
  exists_raises : pystr -> option exn;
  (** [p.is_dir()] *)
  path_is_dir : pystr -> bool;
  is_dir_raises : pystr -> option exn;
  (** the names in a directory, in the order the system lists them *)
  listdir : pystr -> list pystr;
  glob_raises : pystr -> option exn;
  (** directory, name *)
  open_read : pystr -> pystr -> file_read;
  (** [datetime.now().strftime("%Y-%m-%d %H:%M:%S")], which is made of
      digits and punctuation *)
  now : pystr;
  now_is_text : has_surrogate now = false;
  (** [out_path.parent.mkdir(parents=True, exist_ok=True)] *)
  mkdir_raises : pystr -> option exn;
  (** [out_path.open("w", encoding="utf-8")] and the end of its [with] *)
  open_write_raises : pystr -> option exn;
  close_raises : pystr -> option exn;
  (** [print(line)] *)
  print_raises : pystr -> option exn
}.

(** ** The script *)

Definition OK : pystr := lit "OK".
Definition WARN : pystr := lit "WARN".
Definition FAIL : pystr := lit "FAIL".

Definition ALLOWED_STATUS : list pystr := [OK; WARN; FAIL].

Definition str_in (s : pystr) (l : list pystr) : bool :=
  existsb (str_eqb s) l.

Section Script.
Context (rt : runtime).

Definition upper_char (c : N) : pystr :=
  if ((97 <=? c) && (c <=? 122))%N then [(c - 32)%N]
  else if (c <? 128)%N then [c]
  else upper_ext rt c.

(** [str.upper()] *)
Definition upper (s : pystr) : pystr := flat_map upper_char s.

Definition normalize_status (s : json) : pystr :=
  match s with
  | JStr s =>
      let s := upper (strip s) in
      if str_in s ALLOWED_STATUS then s else FAIL
  | _ => FAIL
  end.

(** [{"OK": 0, "WARN": 1, "FAIL": 2}.get(status, 2)]: a list or a dict
    cannot be hashed, any other key is looked up. *)
Definition score_status (status : json) : res Z :=
  match status with
  | JStr s =>
      match dict_get s [(OK, 0); (WARN, 1); (FAIL, 2)] with
      | Some n => Ret n
      | None => Ret 2
      end
  | JArr _ | JObj _ => Raise (TypeError status)
  | _ => Ret 2
  end.

(** [str(v)], which is what an f-string field shows. *)
Definition py_str (v : json) : pystr :=
  match v with
  | JStr s => s
  | JNull => lit "None"
  | JBool true => lit "True"
  | JBool false => lit "False"
  | JInt z => str_of_int z
  | _ => str_ext rt v
  end.

(** [x in (a, b, ...)] for a tuple of strings: equality with one of them. *)
Definition in_strs (x : json) (l : list pystr) : bool :=
  match x with
  | JStr s => str_in s l
  | _ => false
  end.

(** *** read_jsonl_file *)

Definition decode_error (name : pystr) (lineno : Z) (msg : pystr) : pystr :=
  name ++ lit ":" ++ str_of_int lineno ++ lit " JSONDecodeError: " ++ msg.

Definition read_error (name : pystr) (msg : pystr) : pystr :=
  name ++ lit ": Could not read file: " ++ msg.

(** The [for lineno, line in enumerate(f, start=1)] loop; [entries] and
    [errors] are the two lists it appends to.  The third component is the
    exception that leaves the loop, when [json.loads] raises one that the
    inner [except] does not catch. *)
Fixpoint read_lines (name : pystr) (lineno : Z) (lines : list pystr)
    (entries : list json) (errors : list pystr)
    : list json * list pystr * option pystr :=
  match lines with
  | [] => (entries, errors, None)
  | line :: rest =>
      let line := strip line in
      match line with
      | [] => read_lines name (lineno + 1) rest entries errors
      | _ =>
          match json_loads rt line with
          | Loaded obj =>
              read_lines name (lineno + 1) rest (entries ++ [obj]) errors
          | JSONDecodeError e =>
              read_lines name (lineno + 1) rest entries
                (errors ++ [decode_error name lineno e])
          | OtherError e => (entries, errors, Some e)
          end
      end
  end.

(** The outer [except Exception] catches what [open] raises, what the file
    object raises while it is read, and what leaves the loop. *)
Definition read_jsonl_file (name : pystr) (f : file_read)
    : list json * list pystr :=
  match f with
  | OpenError e => ([], [read_error name e])
  | Stream lines failure =>
      let '(entries, errors, raised) := read_lines name 1 lines [] [] in
      match raised with
      | Some e => (entries, errors ++ [read_error name e])
      | None =>
          match failure with
          | None => (entries, errors)
          | Some e => (entries, errors ++ [read_error name e])
          end
      end
  end.

(** *** File discovery *)

(** [logdir.glob("*.jsonl")] *)
Definition glob_jsonl (w : world) (logdir : pystr) : list pystr :=
  filter (fun name => endswith name (lit ".jsonl")) (listdir w logdir).

Fixpoint insort (x : pystr) (l : list pystr) : list pystr :=
  match l with
  | [] => [x]
  | y :: l' => if str_ltb x y then x :: l else y :: insort x l'
  end.

(** [sorted(...)]: a stable sort that only uses [<].  The paths share their
    directory, so they compare as their names do. *)
Definition sorted (l : list pystr) : list pystr :=
  fold_left (fun acc x => insort x acc) l [].

(** *** The loops of main *)

(** [for lf in log_files: ...] *)
Fixpoint read_all (w : world) (logdir : pystr) (log_files : list pystr)
    (all_entries : list json) (all_errors : list pystr)
    : list json * list pystr :=
  match log_files with
  | [] => (all_entries, all_errors)
  | lf :: rest =>
      let '(entries, errors) := read_jsonl_file lf (open_read w logdir lf) in
      read_all w logdir rest (all_entries ++ entries) (all_errors ++ errors)
  end.

Definition RESERVED : list pystr := [lit "run_start"; lit "run_summary"].

(** [for e in all_entries: ...].  No two entries are the same object, so
    the update of [e] is an update of the value appended. *)
Fixpoint classify (all_entries : list json) (check_entries : list json)
    : res (list json) :=
  match all_entries with
  | [] => Ret check_entries
  | e :: rest =>
      check <- py_get e (lit "check") (JStr []) ;;
      if in_strs check RESERVED then classify rest check_entries
      else
        s <- py_get e (lit "status") JNull ;;
        let status := normalize_status s in
        e <- py_setitem e (lit "_norm_status") (JStr status) ;;
        classify rest (check_entries ++ [e])
  end.

(** [counts[st]] *)
Definition counts_getitem (counts : dict Z) (st : json) : res Z :=
  match st with
  | JStr s =>
      match dict_get s counts with
      | Some n => Ret n
      | None => Raise (KeyError st)
      end
  | JArr _ | JObj _ => Raise (TypeError st)
  | _ => Raise (KeyError st)
  end.

(** [counts[st] += 1] *)
Definition counts_incr (counts : dict Z) (st : json) : res (dict Z) :=
  n <- counts_getitem counts st ;;
  match st with
  | JStr s => Ret (dict_set s (n + 1) counts)
  | _ => Raise (TypeError st)
  end.

(** [for e in check_entries: ...] *)
Fixpoint aggregate (check_entries : list json)
    (counts : dict Z) (worst : json) (findings : list json)
    : res (dict Z * json * list json) :=
  match check_entries with
  | [] => Ret (counts, worst, findings)
  | e :: rest =>
      st <- py_getitem e (lit "_norm_status") ;;
      counts <- counts_incr counts st ;;
      score <- score_status st ;;
      score_worst <- score_status worst ;;
      let worst := if score >? score_worst then st else worst in
      let findings :=
        if in_strs st [WARN; FAIL] then findings ++ [e] else findings in
      aggregate rest counts worst findings
  end.

Definition risk_low : pystr := [76; 229; 103]%N.
Definition risk_medium : pystr := lit "Medel".
Definition risk_high : pystr := [72; 246; 103]%N.

Definition risk_level (fail_count : Z) : pystr :=
  if fail_count =? 0 then risk_low
  else if fail_count =? 1 then risk_medium
  else risk_high.

(** The variables of [main] when the report is about to be written;
    [all_entries] holds the records as they were decoded. *)
Record locals := {
  log_files : list pystr;
  all_entries : list json;
  all_errors : list pystr;
  check_entries : list json;
  counts : dict Z;
  worst : json;
  findings : list json;
  fail_count : Z;
  risk : pystr
}.

(** Lines 57 to 94 of the script. *)
Definition analyse (w : world) (logdir : pystr) (log_files : list pystr)
    : res locals :=
  let '(all_entries, all_errors) := read_all w logdir log_files [] [] in
  check_entries <- classify all_entries [] ;;
  ' (counts, worst, findings) <-
      aggregate check_entries [(OK, 0); (WARN, 0); (FAIL, 0)] (JStr OK) [] ;;
  fail_count <- counts_getitem counts (JStr FAIL) ;;
  Ret {| log_files := log_files; all_entries := all_entries;
         all_errors := all_errors; check_entries := check_entries;
         counts := counts; worst := worst; findings := findings;
         fail_count := fail_count; risk := risk_level fail_count |}.

(** *** The report *)

Definition nl : pystr := [10%N].

(** [rep.write(text)] on a file opened with [encoding="utf-8"]: the text is
    encoded when it is written, and what was written before stays. *)
Definition rep_write (text : pystr) (written : pystr) : res pystr :=
  if has_surrogate text then Raise (UnicodeEncodeError text)
  else Ret (written ++ text).

(** The texts of lines 120 and 121, put together. *)
Definition write_finding (e : json) : res pystr :=
  host <- py_get e (lit "host") (JStr (lit "?")) ;;
  os <- py_get e (lit "os") (JStr (lit "?")) ;;
  check <- py_get e (lit "check") (JStr (lit "?")) ;;
  st <- py_get e (lit "_norm_status") JNull ;;
  details <- py_get e (lit "details") (JStr []) ;;
  Ret (lit "- **" ++ py_str host ++ lit "** / " ++ py_str os ++ lit " / `"
       ++ py_str check ++ lit "` " ++ [8594%N] ++ lit " **" ++ py_str st
       ++ lit "**" ++ nl
       ++ lit "  - Detaljer: " ++ py_str details ++ nl).

(** The arguments of the two [rep.write] calls made for one finding;
    each is evaluated when its call is reached. *)
Definition finding_chunks (e : json) : list (res pystr) :=
  [ (host <- py_get e (lit "host") (JStr (lit "?")) ;;
     os <- py_get e (lit "os") (JStr (lit "?")) ;;
     check <- py_get e (lit "check") (JStr (lit "?")) ;;
     st <- py_get e (lit "_norm_status") JNull ;;
     Ret (lit "- **" ++ py_str host ++ lit "** / " ++ py_str os ++ lit " / `"
          ++ py_str check ++ lit "` " ++ [8594%N] ++ lit " **" ++ py_str st
          ++ lit "**" ++ nl));
    (details <- py_get e (lit "details") (JStr []) ;;
     Ret (lit "  - Detaljer: " ++ py_str details ++ nl)) ].

Definition report_head : pystr :=
  lit "# Security baseline-rapport" ++ nl ++ nl ++ lit "**Genererad:** ".

(** Lines 102 to 129: the arguments of the [rep.write] calls, in the order
    of the calls. *)
Definition body_chunks (st : locals) : list (res pystr) :=
  [ Ret (lit "## Inl" ++ [228%N] ++ lit "sta loggfiler" ++ nl) ]
  ++ map (fun lf => Ret (lit "- " ++ lf ++ nl)) (log_files st)
  ++ [ Ret nl;
       Ret (lit "## Sammanfattning" ++ nl);
       Ret (lit "- Totalt antal kontroller (exkl. start/summering): "
            ++ str_of_int (Z.of_nat (List.length (check_entries st))) ++ nl);
       (n <- counts_getitem (counts st) (JStr OK) ;;
        Ret (lit "- OK: " ++ str_of_int n ++ nl));
       (n <- counts_getitem (counts st) (JStr WARN) ;;
        Ret (lit "- WARN: " ++ str_of_int n ++ nl));
       (n <- counts_getitem (counts st) (JStr FAIL) ;;
        Ret (lit "- FAIL: " ++ str_of_int n ++ nl));
       Ret (lit "- V" ++ [228%N] ++ lit "rsta status: **"
            ++ py_str (worst st) ++ lit "**" ++ nl);
       Ret (lit "- Bed" ++ [246%N] ++ lit "md riskniv" ++ [229%N]
            ++ lit " (enkel modell): **" ++ risk st ++ lit "**" ++ nl ++ nl);
       Ret (lit "## Avvikelser (WARN/FAIL)" ++ nl) ]
  ++ match findings st with
     | [] => [Ret (lit "Inga avvikelser identifierades." ++ nl ++ nl)]
     | _ => flat_map finding_chunks (findings st) ++ [Ret nl]
     end
  ++ [ Ret (lit "## Fel vid inl" ++ [228%N] ++ lit "sning (om n" ++ [229%N]
            ++ lit "gra)" ++ nl) ]
  ++ match all_errors st with
     | [] => [Ret (lit "Inga inl" ++ [228%N] ++ lit "sningsfel." ++ nl)]
     | _ => map (fun err => Ret (lit "- " ++ err ++ nl)) (all_errors st)
     end.

(** Lines 100 to 129: the title, the timestamp and the rest. *)
Definition report_chunks (now : pystr) (st : locals) : list (res pystr) :=
  [ Ret (lit "# Security baseline-rapport" ++ nl ++ nl);
    Ret (lit "**Genererad:** " ++ now ++ nl ++ nl) ]
  ++ body_chunks st.

(** The calls one after the other, from what the file holds so far. *)
Fixpoint write_chunks (chunks : list (res pystr)) (written : pystr)
    : res pystr :=
  match chunks with
  | [] => Ret written
  | chunk :: rest =>
      text <- chunk ;;
      written <- rep_write text written ;;
      write_chunks rest written
  end.

(** *** main *)

(** How the process ends.  [Exited] is a [sys.exit] before anything is
    read or written; [Crashed] is an exception nobody catches, which ends the
    interpreter with status 1 ([opened] tells whether the report file had
    been opened for writing, and so created or cut short); [Finished] is the
    [sys.exit] of the last line, after the report has been written to
    [path]. *)
Inductive outcome :=
| Exited (code : Z) (stdout : list pystr)
| Crashed (e : exn) (opened : bool)
| Finished (st : locals) (path : pystr) (report : pystr)
    (stdout : list pystr) (code : Z).

Definition exit_code (o : outcome) : Z :=
  match o with
  | Exited code _ => code
  | Crashed _ _ => 1
  | Finished _ _ _ _ code => code
  end.

(** The report of a run that reaches its last line. *)
Definition report_of (o : outcome) : option pystr :=
  match o with
  | Finished _ _ report _ _ => Some report
  | _ => None
  end.

(** Whether the run created or truncated the report file. *)
Definition touches_report (o : outcome) : bool :=
  match o with
  | Exited _ _ => false
  | Crashed _ opened => opened
  | Finished _ _ _ _ _ => true
  end.

(** [print(line)] followed by [sys.exit(code)]. *)
Definition print_and_exit (w : world) (line : pystr) (code : Z) : outcome :=
  match print_raises w line with
  | Some e => Crashed e false
  | None => Exited code [line]
  end.

(** [not logdir.exists() or not logdir.is_dir()] *)
Definition not_a_directory (w : world) (logdir : pystr) : res bool :=
  match exists_raises w logdir with
  | Some e => Raise e
  | None =>
      if negb (path_exists w logdir) then Ret true
      else
        match is_dir_raises w logdir with
        | Some e => Raise e
        | None => Ret (negb (path_is_dir w logdir))
        end
  end.

(** Lines 96 to 134: the report is written, the message printed and the
    process left. *)
Definition report_and_exit (w : world) (out_path : pystr) (st : locals)
    : outcome :=
  match mkdir_raises w out_path with
  | Some e => Crashed e false
  | None =>
  match open_write_raises w out_path with
  | Some e => Crashed e false
  | None =>
  match write_chunks (report_chunks (now w) st) [] with
  | Raise e => Crashed e true
  | Ret report =>
  match close_raises w out_path with
  | Some e => Crashed e true
  | None =>
  match print_raises w (lit "OK: Report written to: " ++ out_path) with
  | Some e => Crashed e true
  | None =>
  match counts_getitem (counts st) (JStr FAIL) with
  | Raise e => Crashed e true
  | Ret n_fail =>
      Finished st out_path report
        [lit "OK: Report written to: " ++ out_path]
        (if n_fail =? 0 then 0 else 1)
  end end end end end end.

Definition main (w : world) : outcome :=
  if negb (Nat.eqb (List.length (argv w)) 3) then
    print_and_exit w
      (lit "Usage: python3 analyze_baseline.py <logdir> <output_report_md>") 2
  else
    match resolve_raises w (nth 1 (argv w) []) with
    | Some e => Crashed e false
    | None =>
    let logdir := resolve w (nth 1 (argv w) []) in
    match resolve_raises w (nth 2 (argv w) []) with
    | Some e => Crashed e false
    | None =>
    let out_path := resolve w (nth 2 (argv w) []) in
    match not_a_directory w logdir with
    | Raise e => Crashed e false
    | Ret true =>
        print_and_exit w
          (lit "ERROR: logdir does not exist or is not a directory: "
           ++ logdir) 2
    | Ret false =>
    match glob_raises w logdir with
    | Some e => Crashed e false
    | None =>
      let log_files := sorted (glob_jsonl w logdir) in
      match log_files with
      | [] =>
          print_and_exit w
            (lit "ERROR: no .jsonl files found in: " ++ logdir) 2
      | _ =>
          match analyse w logdir log_files with
          | Raise e => Crashed e false
          | Ret st => report_and_exit w out_path st
          end
      end
    end end end end.

End Script.

(** ** Vocabulary of the properties *)

(** The [check] field of a record, with the default of the classifier. *)
Definition check_of (e : json) : json :=
  match e with
  | JObj d =>
      match dict_get (lit "check") d with Some v => v | None => JStr [] end
  | _ => JStr []
  end.

(** A run-metadata record: [check] is "run_start" or "run_summary". *)
Definition reserved (e : json) : bool := in_strs (check_of e) RESERVED.

(** The status attached to a classified record. *)
Definition status_of (e : json) : json :=
  match e with
  | JObj d =>
      match dict_get (lit "_norm_status") d with Some v => v | None => JNull end
  | _ => JNull
  end.

Definition has_status (n : pystr) (e : json) : bool :=
  match status_of e with
  | JStr s => str_eqb s n
  | _ => false
  end.

(** How many records of [l] carry the status [n]. *)
Definition tally (n : pystr) (l : list json) : Z :=
  Z.of_nat (List.length (filter (has_status n) l)).

(** The severity of a status, 2 where [score_status] raises. *)
Definition weight (status : json) : Z :=
  match score_status status with
  | Ret n => n
  | Raise _ => 2
  end.

(** The larger severity among the records of [l], 0 when there is none. *)
Definition max_score (l : list json) : Z :=
  fold_right (fun e m => Z.max (weight (status_of e)) m) 0 l.

(** A classified record carries one of the three statuses. *)
Definition well_classified (e : json) : Prop :=
  exists n, py_getitem e (lit "_norm_status") = Ret (JStr n) /\
            In n ALLOWED_STATUS.

(** A record that becomes a finding. *)
Definition deviates (e : json) : bool := in_strs (status_of e) [WARN; FAIL].

(** The running worst status after the records of [l]. *)
Definition running_worst (worst : json) (l : list json) : json :=
  fold_left
    (fun worst e =>
       if weight (status_of e) >? weight worst
       then status_of e else worst)
    l worst.

(** What the running worst knows about the two counters. *)
Definition worst_agrees (worst : json) (n_warn n_fail : Z) : Prop :=
  (worst = JStr OK /\ n_warn = 0 /\ n_fail = 0) \/
  (worst = JStr WARN /\ 0 < n_warn /\ n_fail = 0) \/
  (worst = JStr FAIL /\ 0 < n_fail).

(** [e.get(key, default)] on a dict. *)
Definition field (d : dict json) (key : pystr) (default : json) : json :=
  match dict_get key d with Some v => v | None => default end.

(** [<=] on strings, from [<]. *)
Definition str_le (a b : pystr) : Prop := str_ltb b a = false.

(** A file whose reading stops on an error. *)
Definition cannot_be_read (f : file_read) : Prop :=
  match f with
  | OpenError _ => True
  | Stream _ (Some _) => True
  | Stream _ None => False
  end.

(** A file that fails before it has delivered a line. *)
Definition fails_at_once (f : file_read) : option pystr :=
  match f with
  | OpenError e => Some e
  | Stream [] (Some e) => Some e
  | _ => None
  end.

Section Vocabulary.
Context (rt : runtime).

(** What one physical line contributes, by its 1-based number. *)
Definition line_records (line : pystr) : list json :=
  match strip line with
  | [] => []
  | s => match json_loads rt s with Loaded obj => [obj] | _ => [] end
  end.

(** The exception that a line sends out of the loop, if it does. *)
Definition line_raises (line : pystr) : option pystr :=
  match strip line with
  | [] => None
  | s => match json_loads rt s with OtherError e => Some e | _ => None end
  end.

(** The lines the loop goes through: those before the first one that
    sends an exception out of it. *)
Fixpoint lines_read (lines : list pystr) : list pystr :=
  match lines with
  | [] => []
  | line :: rest =>
      match line_raises line with
      | Some _ => []
      | None => line :: lines_read rest
      end
  end.

(** The exception that ends the loop, if one does. *)
Fixpoint loop_raises (lines : list pystr) : option pystr :=
  match lines with
  | [] => None
  | line :: rest =>
      match line_raises line with
      | Some e => Some e
      | None => loop_raises rest
      end
  end.

Definition line_errors (name : pystr) (lineno : Z) (line : pystr)
    : list pystr :=
  match strip line with
  | [] => []
  | s =>
      match json_loads rt s with
      | JSONDecodeError e => [decode_error name lineno e]
      | _ => []
      end
  end.

Fixpoint records_from (lines : list pystr) : list json :=
  match lines with
  | [] => []
  | line :: rest => line_records line ++ records_from rest
  end.

Fixpoint errors_from (name : pystr) (lineno : Z) (lines : list pystr)
    : list pystr :=
  match lines with
  | [] => []
  | line :: rest =>
      line_errors name lineno line ++ errors_from name (lineno + 1) rest
  end.

Definition file_records (w : world) (logdir lf : pystr) : list json :=
  fst (read_jsonl_file rt lf (open_read w logdir lf)).

Definition file_errors (w : world) (logdir lf : pystr) : list pystr :=
  snd (read_jsonl_file rt lf (open_read w logdir lf)).

(** What classification does to one record that it keeps. *)
Definition classified (e e' : json) : Prop :=
  exists d,
    e = JObj d /\
    e' = JObj (dict_set (lit "_norm_status")
                 (JStr (normalize_status rt (field d (lit "status") JNull))) d).

(** The two lines a finding takes in the report. *)
Definition finding_text (host os check st details : json) : pystr :=
  lit "- **" ++ py_str rt host ++ lit "** / " ++ py_str rt os ++ lit " / `"
  ++ py_str rt check ++ lit "` " ++ [8594%N] ++ lit " **" ++ py_str rt st
  ++ lit "**" ++ nl
  ++ lit "  - Detaljer: " ++ py_str rt details ++ nl.

(** What a classified record [e'] keeps of the decoded record [e]: every
    field but [_norm_status], the order of the keys, and so the two report
    lines made of the decoded values. *)
Definition keeps_fields (e e' : json) : Prop :=
  exists d d',
    e = JObj d /\ e' = JObj d' /\
    (forall k, k <> lit "_norm_status" -> dict_get k d' = dict_get k d) /\
    dict_get (lit "_norm_status") d' =
      Some (JStr (normalize_status rt (field d (lit "status") JNull))) /\
    map fst d' =
      match dict_get (lit "_norm_status") d with
      | Some _ => map fst d
      | None => map fst d ++ [lit "_norm_status"]
      end /\
    write_finding rt e' =
      Ret (finding_text
             (field d (lit "host") (JStr (lit "?")))
             (field d (lit "os") (JStr (lit "?")))
             (field d (lit "check") (JStr (lit "?")))
             (JStr (normalize_status rt (field d (lit "status") JNull)))
             (field d (lit "details") (JStr []))).

End Vocabulary.

(** [t] occurs in [s] as a run of consecutive characters. *)
Definition occurs_in (t s : pystr) : Prop :=
  exists pre post, s = pre ++ t ++ post.

(** A string of whitespace only. *)
Definition all_space (s : pystr) : Prop :=
  Forall (fun c => is_space c = true) s.

(** A string of ASCII characters only. *)
Definition is_ascii (s : pystr) : Prop := Forall (fun c => (c < 128)%N) s.

(** A line that the decoder does not skip. *)
Definition non_blank (line : pystr) : bool :=
  match strip line with [] => false | _ => true end.

(** [str.upper] on one ASCII character. *)
Definition ascii_upper (c : N) : N :=
  if ((97 <=? c) && (c <=? 122))%N then (c - 32)%N else c.

(** The records decoded by a run, in reading order. *)
Definition decoded (rt : runtime) (w : world) : list json :=
  flat_map (file_records rt w (resolve w (nth 1 (argv w) [])))
    (sorted (glob_jsonl w (resolve w (nth 1 (argv w) [])))).

(** Two machines whose calls, apart from the listing, the reading and the
    clock, return and raise alike. *)
Definition same_calls (w1 w2 : world) : Prop :=
  (forall p, resolve w1 p = resolve w2 p) /\
  (forall p, resolve_raises w1 p = resolve_raises w2 p) /\
  (forall p, path_exists w1 p = path_exists w2 p) /\
  (forall p, exists_raises w1 p = exists_raises w2 p) /\
  (forall p, path_is_dir w1 p = path_is_dir w2 p) /\
  (forall p, is_dir_raises w1 p = is_dir_raises w2 p) /\
  (forall p, glob_raises w1 p = glob_raises w2 p) /\
  (forall p, mkdir_raises w1 p = mkdir_raises w2 p) /\
  (forall p, open_write_raises w1 p = open_write_raises w2 p) /\
  (forall p, close_raises w1 p = close_raises w2 p) /\
  (forall t, print_raises w1 t = print_raises w2 t).

(** Two machines that differ at most in what is not a [*.jsonl] file of the
    directory, and in the order of the listing. *)
Definition same_jsonl_files (w1 w2 : world) : Prop :=
  argv w1 = argv w2 /\
  same_calls w1 w2 /\
  (forall d, Permutation (glob_jsonl w1 d) (glob_jsonl w2 d)) /\
  (forall d n,
     In n (glob_jsonl w1 d) -> open_read w1 d n = open_read w2 d n) /\
  now w1 = now w2.

(** Two machines with the same command line, the same directory contents
    and the same files; the listing order and the clock are free. *)
Definition same_inputs (w1 w2 : world) : Prop :=
  argv w1 = argv w2 /\
  same_calls w1 w2 /\
  (forall d, Permutation (listdir w1 d) (listdir w2 d)) /\
  (forall d n, open_read w1 d n = open_read w2 d n).

(** Two runs that end alike, their reports differing in the timestamp only. *)
Definition same_but_timestamp (now1 now2 : pystr) (o1 o2 : outcome) : Prop :=
  match o1, o2 with
  | Exited c1 out1, Exited c2 out2 => c1 = c2 /\ out1 = out2
  | Crashed e1 b1, Crashed e2 b2 => e1 = e2 /\ b1 = b2
  | Finished st1 p1 r1 out1 c1, Finished st2 p2 r2 out2 c2 =>
      st1 = st2 /\ p1 = p2 /\ out1 = out2 /\ c1 = c2 /\
      exists rest,
        r1 = report_head ++ now1 ++ rest /\ r2 = report_head ++ now2 ++ rest
  | _, _ => False
  end.


(** A machine none of whose calls raises before the files are read. *)
Definition quiet_start (w : world) : Prop :=
  (forall p, resolve_raises w p = None) /\
  (forall p, exists_raises w p = None) /\
  (forall p, is_dir_raises w p = None) /\
  (forall p, glob_raises w p = None) /\
  (forall t, print_raises w t = None).


(** A usage or configuration error: wrong argument count, input path missing
    or not a directory, or no file with the extension. *)
Definition config_error (w : world) : bool :=
  negb (Nat.eqb (List.length (argv w)) 3)
  || negb (path_exists w (resolve w (nth 1 (argv w) [])))
  || negb (path_is_dir w (resolve w (nth 1 (argv w) [])))
  || match glob_jsonl w (resolve w (nth 1 (argv w) [])) with
     | [] => true
     | _ => false
     end.

(** ** Sample inputs *)

Module Sample.

(** A JSON string token: the text between double quotes. *)
Definition q (s : string) : pystr := [34%N] ++ lit s ++ [34%N].

(** [{"check":"run_start"}] *)
Definition line_start : pystr :=
  lit "{" ++ q "check" ++ lit ":" ++ q "run_start" ++ lit "}".
(** [{"check":"x","status":"fail","host":"h1"}] *)
Definition line_x : pystr :=
  lit "{" ++ q "check" ++ lit ":" ++ q "x" ++ lit "," ++ q "status" ++ lit ":"
  ++ q "fail" ++ lit "," ++ q "host" ++ lit ":" ++ q "h1" ++ lit "}".
(** [{"check":"y","status":"OK"}] *)
Definition line_y : pystr :=
  lit "{" ++ q "check" ++ lit ":" ++ q "y" ++ lit "," ++ q "status" ++ lit ":"
  ++ q "OK" ++ lit "}".
(** [{"check":"z","status":"warn"}] *)
Definition line_z : pystr :=
  lit "{" ++ q "check" ++ lit ":" ++ q "z" ++ lit "," ++ q "status" ++ lit ":"
  ++ q "warn" ++ lit "}".
Definition line_42 : pystr := lit "42".
Definition line_bad : pystr := lit "not-json".

Definition rec_start : json := JObj [(lit "check", JStr (lit "run_start"))].
Definition rec_x : json :=
  JObj [(lit "check", JStr (lit "x")); (lit "status", JStr (lit "fail"));
        (lit "host", JStr (lit "h1"))].
Definition rec_y : json :=
  JObj [(lit "check", JStr (lit "y")); (lit "status", JStr (lit "OK"))].
Definition rec_z : json :=
  JObj [(lit "check", JStr (lit "z")); (lit "status", JStr (lit "warn"))].

Definition expecting_value : pystr :=
  lit "Expecting value: line 1 column 1 (char 0)".

(** An integer of 5000 digits, and what [int] says of it. *)
Definition line_digits : pystr := repeat 49%N 5000.
Definition too_many_digits : pystr :=
  lit "Exceeds the limit (4300 digits) for integer string conversion: "
  ++ lit "value has 5000 digits; use sys.set_int_max_str_digits() "
  ++ lit "to increase the limit".

(** [json.loads] on the lines above; no other line is used below. *)
Definition loads (s : pystr) : loads_result :=
  if str_eqb s line_start then Loaded rec_start
  else if str_eqb s line_x then Loaded rec_x
  else if str_eqb s line_y then Loaded rec_y
  else if str_eqb s line_z then Loaded rec_z
  else if str_eqb s line_42 then Loaded (JInt 42)
  else if str_eqb s line_digits then OtherError too_many_digits
  else JSONDecodeError expecting_value.

Definition rt : runtime :=
  {| json_loads := loads; upper_ext := fun c => [c]; str_ext := fun _ => [] |}.

Definition logdir : pystr := lit "/srv/logs".
Definition out_md : pystr := lit "/srv/report.md".
Definition a_jsonl : pystr := lit "a.jsonl".
Definition b_jsonl : pystr := lit "b.jsonl".
Definition permission_denied : pystr := lit "[Errno 13] Permission denied".
Definition io_error : pystr := lit "[Errno 5] Input/output error".

(** The directory of the worked example: one file of four lines. *)
Definition a_lines : list pystr :=
  [line_start ++ nl; line_x ++ nl; line_bad ++ nl; line_y ++ nl].

(** A file of four lines, the second an integer of 5000 digits. *)
Definition digits_file : file_read :=
  Stream [line_y ++ nl; line_digits ++ nl; line_bad ++ nl; line_x ++ nl] None.

(** A machine on which no call raises. *)
Definition mk_world (names : list pystr) (files : pystr -> file_read)
    (now : pystr) (now_is_text : has_surrogate now = false) : world :=
  {| argv := [lit "analyze_baseline.py"; logdir; out_md];
     resolve := fun p => p;
     resolve_raises := fun _ => None;
     path_exists := fun p => str_eqb p logdir;
     exists_raises := fun _ => None;
     path_is_dir := fun p => str_eqb p logdir;
     is_dir_raises := fun _ => None;
     listdir := fun _ => names;
     glob_raises := fun _ => None;
     open_read := fun _ name => files name;
     now := now;
     now_is_text := now_is_text;
     mkdir_raises := fun _ => None;
     open_write_raises := fun _ => None;
     close_raises := fun _ => None;
     print_raises := fun _ => None |}.

Definition example_world : world :=
  mk_world [lit "notes.txt"; a_jsonl]
    (fun _ => Stream a_lines None) (lit "2024-05-01 12:00:00") eq_refl.

(** Two files, listed out of order; the second cannot be opened. *)
Definition two_files (name : pystr) : file_read :=
  if str_eqb name a_jsonl then Stream a_lines None
  else OpenError permission_denied.

Definition world_ba : world :=
  mk_world [b_jsonl; a_jsonl] two_files (lit "2024-05-01 12:00:00") eq_refl.
Definition world_ab : world :=
  mk_world [a_jsonl; b_jsonl] two_files (lit "2024-05-02 08:30:00") eq_refl.

(** A file holding a line that is JSON but not an object. *)
Definition world_42 : world :=
  mk_world [a_jsonl]
    (fun _ => Stream [line_y ++ nl; line_42 ++ nl] None)
    (lit "2024-05-01 12:00:00") eq_refl.

(** A file that delivers two lines and then fails. *)
Definition torn_file : file_read :=
  Stream [line_x ++ nl; line_bad ++ nl] (Some io_error).

(** One FAIL and two WARN. *)
Definition world_warn : world :=
  mk_world [a_jsonl]
    (fun _ => Stream [line_z ++ nl; line_x ++ nl; line_z ++ nl] None)
    (lit "2024-05-01 12:00:00") eq_refl.

(** A record that already carries a [_norm_status] field. *)
Definition rec_stale : dict json :=
  [(lit "check", JStr (lit "x")); (lit "_norm_status", JStr (lit "OK"));
   (lit "status", JStr (lit "fail"))].

Definition rec_stale' : dict json :=
  [(lit "check", JStr (lit "x")); (lit "_norm_status", JStr FAIL);
   (lit "status", JStr (lit "fail"))].

(** The classified records of the worked example. *)
Definition rec_x' : json :=
  JObj [(lit "check", JStr (lit "x")); (lit "status", JStr (lit "fail"));
        (lit "host", JStr (lit "h1")); (lit "_norm_status", JStr FAIL)].
Definition rec_y' : json :=
  JObj [(lit "check", JStr (lit "y")); (lit "status", JStr (lit "OK"));
        (lit "_norm_status", JStr OK)].
Definition rec_z' : json :=
  JObj [(lit "check", JStr (lit "z")); (lit "status", JStr (lit "warn"));
        (lit "_norm_status", JStr WARN)].

(** [a.jsonl:3 JSONDecodeError: Expecting value: line 1 column 1 (char 0)] *)
Definition error_line_3 : pystr :=
  lit "a.jsonl:3 JSONDecodeError: Expecting value: line 1 column 1 (char 0)".

(** The variables of the worked example when its report is written: two
    classified records, one OK and one FAIL, one finding, one decode error. *)
Definition example_locals : locals :=
  {| log_files := [a_jsonl];
     all_entries := [rec_start; rec_x; rec_y];
     all_errors := [error_line_3];
     check_entries := [rec_x'; rec_y'];
     counts := [(OK, 1); (WARN, 0); (FAIL, 1)];
     worst := JStr FAIL;
     findings := [rec_x'];
     fail_count := 1;
     risk := risk_medium |}.

Definition example_report : pystr :=
  Eval vm_compute in
    match
      write_chunks (report_chunks rt (lit "2024-05-01 12:00:00") example_locals)
        []
    with
    | Ret report => report
    | Raise _ => []
    end.

Definition warn_locals : locals :=
  {| log_files := [a_jsonl];
     all_entries := [rec_z; rec_x; rec_z];
     all_errors := [];
     check_entries := [rec_z'; rec_x'; rec_z'];
     counts := [(OK, 0); (WARN, 2); (FAIL, 1)];
     worst := JStr FAIL;
     findings := [rec_z'; rec_x'; rec_z'];
     fail_count := 1;
     risk := risk_medium |}.

Definition warn_report : pystr :=
  Eval vm_compute in
    match
      write_chunks (report_chunks rt (lit "2024-05-01 12:00:00") warn_locals)
        []
    with
    | Ret report => report
    | Raise _ => []
    end.

Definition written_to : list pystr :=
  [lit "OK: Report written to: /srv/report.md"].





(** The worked example with one more file, which is not a log, and the
    same clock. *)
Definition world_more : world :=
  mk_world [a_jsonl; lit "README.md"; lit "notes.txt"]
    (fun name => if str_eqb name a_jsonl then Stream a_lines None
                 else OpenError permission_denied)
    (lit "2024-05-01 12:00:00") eq_refl.

End Sample.

(** ** Strings and dicts *)

Lemma str_eqb_eq (a b : pystr) : str_eqb a b = true <-> a = b.
Proof.
  unfold str_eqb. destruct (list_eq_dec N.eq_dec a b); split; congruence.
Qed.

Lemma str_eqb_refl (a : pystr) : str_eqb a a = true.
Proof. now apply str_eqb_eq. Qed.

Lemma str_eqb_neq (a b : pystr) : a <> b -> str_eqb a b = false.
Proof.
  intros H. destruct (str_eqb a b) eqn:E; [|reflexivity].
  apply str_eqb_eq in E. contradiction.
Qed.

Lemma str_in_In (s : pystr) (l : list pystr) : str_in s l = true <-> In s l.
Proof.
  unfold str_in. rewrite existsb_exists. split.
  - intros (x & Hx & E). apply str_eqb_eq in E. now subst.
  - intros H. exists s. split; [assumption | apply str_eqb_refl].
Qed.

Lemma dict_get_set_same {V} (k : pystr) (v : V) (d : dict V) :
  dict_get k (dict_set k v d) = Some v.
Proof.
  induction d as [|[k' v'] d IH]; simpl.
  - now rewrite str_eqb_refl.
  - destruct (str_eqb k k') eqn:E; simpl; rewrite E; auto.
Qed.

Lemma dict_get_set_other {V} (k k' : pystr) (v : V) (d : dict V) :
  k <> k' -> dict_get k (dict_set k' v d) = dict_get k d.
Proof.
  intros Hne. induction d as [|[k0 v0] d IH]; simpl.
  - now rewrite str_eqb_neq.
  - destruct (str_eqb k' k0) eqn:E; simpl.
    + apply str_eqb_eq in E. subst k0. now rewrite str_eqb_neq.
    + destruct (str_eqb k k0); auto.
Qed.

(** A write either replaces a value in place or adds the key at the end. *)
Lemma dict_set_keys {V} (k : pystr) (v : V) (d : dict V) :
  map fst (dict_set k v d) =
  match dict_get k d with
  | Some _ => map fst d
  | None => map fst d ++ [k]
  end.
Proof.
  induction d as [|[k' v'] d IH]; simpl; [reflexivity|].
  destruct (str_eqb k k') eqn:E; simpl; [reflexivity|].
  rewrite IH. now destruct (dict_get k d).
Qed.

(** ** The order of the file names *)

Lemma str_ltb_irrefl (a : pystr) : str_ltb a a = false.
Proof.
  induction a as [|x a IH]; simpl; [reflexivity|].
  now rewrite N.ltb_irrefl.
Qed.

Lemma str_ltb_trans (a b c : pystr) :
  str_ltb a b = true -> str_ltb b c = true -> str_ltb a c = true.
Proof.
  revert b c. induction a as [|x a IH]; intros [|y b] [|z c]; simpl;
    try congruence.
  destruct (N.ltb_spec x y), (N.ltb_spec y x), (N.ltb_spec y z),
    (N.ltb_spec z y), (N.ltb_spec x z), (N.ltb_spec z x);
    try congruence; try lia.
  apply IH.
Qed.

Lemma str_ltb_connex (a b : pystr) :
  str_ltb a b = false -> str_ltb b a = false -> a = b.
Proof.
  revert b. induction a as [|x a IH]; intros [|y b]; simpl; try congruence.
  destruct (N.ltb_spec x y), (N.ltb_spec y x); try congruence; try lia.
  intros H1 H2. f_equal; [lia | now apply IH].
Qed.

Lemma str_ltb_le (a b : pystr) : str_ltb a b = true -> str_le a b.
Proof.
  intros H. unfold str_le. destruct (str_ltb b a) eqn:E; [|reflexivity].
  pose proof (str_ltb_trans _ _ _ H E) as C.
  now rewrite str_ltb_irrefl in C.
Qed.

Lemma str_le_trans (a b c : pystr) : str_le a b -> str_le b c -> str_le a c.
Proof.
  unfold str_le. intros Hab Hbc.
  destruct (str_ltb c a) eqn:Hca; [|reflexivity].
  destruct (str_ltb a b) eqn:E.
  - pose proof (str_ltb_trans _ _ _ Hca E). congruence.
  - pose proof (str_ltb_connex _ _ E Hab). subst. congruence.
Qed.

Lemma str_le_antisym (a b : pystr) : str_le a b -> str_le b a -> a = b.
Proof. unfold str_le. intros H1 H2. now apply str_ltb_connex. Qed.

Lemma insort_perm (x : pystr) (l : list pystr) :
  Permutation (x :: l) (insort x l).
Proof.
  induction l as [|y l IH]; simpl; [reflexivity|].
  destruct (str_ltb x y); [reflexivity|].
  rewrite perm_swap. now constructor.
Qed.

Lemma insort_sorted (x : pystr) (l : list pystr) :
  StronglySorted str_le l -> StronglySorted str_le (insort x l).
Proof.
  induction 1 as [|y l Hs IH Hy]; simpl.
  - repeat constructor.
  - destruct (str_ltb x y) eqn:E.
    + constructor; [now constructor|].
      apply str_ltb_le in E. constructor; [assumption|].
      eapply Forall_impl; [|exact Hy]. intros z. now apply str_le_trans.
    + constructor; [assumption|].
      rewrite <- (insort_perm x l). constructor; assumption.
Qed.

Lemma sorted_from (l acc : list pystr) :
  StronglySorted str_le acc ->
  StronglySorted str_le (fold_left (fun acc x => insort x acc) l acc) /\
  Permutation (acc ++ l) (fold_left (fun acc x => insort x acc) l acc).
Proof.
  revert acc. induction l as [|x l IH]; intros acc Hacc; simpl.
  - split; [assumption | now rewrite app_nil_r].
  - destruct (IH (insort x acc) (insort_sorted x acc Hacc)) as [Hs Hp].
    split; [assumption|].
    rewrite <- Hp, <- (insort_perm x acc).
    now rewrite <- Permutation_middle.
Qed.

Lemma sorted_sorted (l : list pystr) : StronglySorted str_le (sorted l).
Proof. apply (sorted_from l []). constructor. Qed.

Lemma sorted_perm (l : list pystr) : Permutation l (sorted l).
Proof. apply (sorted_from l []). constructor. Qed.

(** Two sorted listings of the same names are the same list. *)
Lemma sorted_unique (l1 l2 : list pystr) :
  StronglySorted str_le l1 -> StronglySorted str_le l2 ->
  Permutation l1 l2 -> l1 = l2.
Proof.
  intros H1. revert l2. induction H1 as [|a l1 Hs1 IH Ha]; intros l2 H2 Hp.
  - now apply Permutation_nil in Hp.
  - destruct H2 as [|b l2 Hs2 Hb].
    + symmetry in Hp. now apply Permutation_nil in Hp.
    + assert (a = b) as ->.
      { assert (In a (b :: l2)) as Ia
          by (eapply Permutation_in; [exact Hp | now left]).
        assert (In b (a :: l1)) as Ib
          by (eapply Permutation_in; [symmetry; exact Hp | now left]).
        destruct Ia as [->|Ia]; [reflexivity|].
        destruct Ib as [->|Ib]; [reflexivity|].
        rewrite Forall_forall in Ha, Hb.
        apply str_le_antisym; auto. }
      f_equal. apply IH; [assumption|].
      now apply Permutation_cons_inv in Hp.
Qed.

Lemma sorted_perm_invariant (l1 l2 : list pystr) :
  Permutation l1 l2 -> sorted l1 = sorted l2.
Proof.
  intros Hp. apply sorted_unique; try apply sorted_sorted.
  now rewrite <- (sorted_perm l1), <- (sorted_perm l2).
Qed.

Lemma filter_perm {A} (f : A -> bool) (l1 l2 : list A) :
  Permutation l1 l2 -> Permutation (filter f l1) (filter f l2).
Proof.
  induction 1; simpl.
  - constructor.
  - destruct (f x); [now constructor | assumption].
  - destruct (f x), (f y); try reflexivity; try apply perm_swap.
  - etransitivity; eassumption.
Qed.

Section Properties.
Context (rt : runtime).

(** ** Normalisation *)

Lemma normalize_status_allowed (s : json) :
  In (normalize_status rt s) ALLOWED_STATUS.
Proof.
  destruct s; unfold normalize_status;
    try (right; right; left; reflexivity).
  destruct (str_in (upper rt (strip s)) ALLOWED_STATUS) eqn:E.
  - now apply str_in_In.
  - right; right; left; reflexivity.
Qed.

(** ** The decoder *)

Lemma read_lines_spec (name : pystr) (lines : list pystr) :
  forall lineno entries errors,
    read_lines rt name lineno lines entries errors =
    (entries ++ records_from rt (lines_read rt lines),
     errors ++ errors_from rt name lineno (lines_read rt lines),
     loop_raises rt lines).
Proof.
  induction lines as [|line rest IH]; intros lineno entries errors;
    cbn [read_lines lines_read loop_raises].
  - cbn. now rewrite !app_nil_r.
  - unfold line_raises.
    destruct (strip line) as [|c s] eqn:E.
    + cbn [records_from errors_from]. unfold line_records, line_errors.
      rewrite E. apply IH.
    + destruct (json_loads rt (c :: s)) eqn:L.
      * cbn [records_from errors_from]. unfold line_records, line_errors.
        rewrite E, L, IH. cbn [app]. now rewrite <- app_assoc.
      * cbn [records_from errors_from]. unfold line_records, line_errors.
        rewrite E, L, IH. cbn [app]. now rewrite <- app_assoc.
      * cbn. now rewrite !app_nil_r.
Qed.

Lemma read_jsonl_file_stream (name : pystr) (lines : list pystr)
    (failure : option pystr) :
  read_jsonl_file rt name (Stream lines failure) =
  (records_from rt (lines_read rt lines),
   errors_from rt name 1 (lines_read rt lines)
   ++ match loop_raises rt lines with
      | Some e => [read_error name e]
      | None =>
          match failure with Some e => [read_error name e] | None => [] end
      end).
Proof.
  unfold read_jsonl_file. rewrite read_lines_spec. cbn [app].
  destruct (loop_raises rt lines); [reflexivity|].
  destruct failure; [reflexivity | now rewrite app_nil_r].
Qed.

(** Where no line sends an exception out of the loop, every line is gone
    through. *)
Lemma lines_read_all (lines : list pystr) :
  loop_raises rt lines = None -> lines_read rt lines = lines.
Proof.
  induction lines as [|line rest IH]; cbn; [reflexivity|].
  destruct (line_raises rt line); [discriminate|].
  intros H. now rewrite IH.
Qed.

(** The lines gone through are the first lines of the file. *)
Lemma lines_read_prefix (lines : list pystr) :
  exists rest, lines = lines_read rt lines ++ rest.
Proof.
  induction lines as [|line rest IH]; cbn; [now exists []|].
  destruct (line_raises rt line).
  - now exists (line :: rest).
  - destruct IH as (r & E). exists r. cbn [app]. f_equal. exact E.
Qed.

Lemma lines_read_nth (lines : list pystr) (i : nat) (line : pystr) :
  nth_error (lines_read rt lines) i = Some line ->
  nth_error lines i = Some line.
Proof.
  destruct (lines_read_prefix lines) as (r & E). intros H.
  rewrite E. rewrite nth_error_app1; [exact H|].
  apply nth_error_Some. congruence.
Qed.

Lemma read_all_spec (w : world) (logdir : pystr) (files : list pystr) :
  forall all_entries all_errors,
    read_all rt w logdir files all_entries all_errors =
    (all_entries ++ flat_map (file_records rt w logdir) files,
     all_errors ++ flat_map (file_errors rt w logdir) files).
Proof.
  induction files as [|lf rest IH]; intros all_entries all_errors; simpl.
  - now rewrite !app_nil_r.
  - unfold file_records at 1, file_errors at 1.
    destruct (read_jsonl_file rt lf (open_read w logdir lf)) as [en er].
    rewrite IH. simpl. now rewrite <- !app_assoc.
Qed.

Lemma records_from_nth (lines : list pystr) (i : nat) (line : pystr)
    (obj : json) :
  nth_error lines i = Some line ->
  strip line <> [] ->
  json_loads rt (strip line) = Loaded obj ->
  In obj (records_from rt lines).
Proof.
  revert i. induction lines as [|l rest IH]; intros [|i] Hn Hs Hl;
    simpl in *; try discriminate; apply in_or_app.
  - injection Hn as ->. left. unfold line_records.
    destruct (strip line); [contradiction|]. rewrite Hl. now left.
  - right. eapply IH; eassumption.
Qed.

Lemma errors_from_nth (name : pystr) (lines : list pystr) (i : nat)
    (line e : pystr) :
  forall lineno,
    nth_error lines i = Some line ->
    strip line <> [] ->
    json_loads rt (strip line) = JSONDecodeError e ->
    In (decode_error name (lineno + Z.of_nat i) e)
       (errors_from rt name lineno lines).
Proof.
  revert i. induction lines as [|l rest IH]; intros [|i] lineno Hn Hs Hl;
    simpl nth_error in *; try discriminate; cbn [errors_from];
    apply in_or_app.
  - injection Hn as ->. left. unfold line_errors.
    destruct (strip line); [contradiction|]. rewrite Hl.
    rewrite Z.add_0_r. now left.
  - right. replace (lineno + Z.of_nat (S i)) with (lineno + 1 + Z.of_nat i)
      by lia.
    eapply IH; eassumption.
Qed.

(** ** The classifier *)

Lemma classify_spec (l : list json) :
  forall acc r,
    classify rt l acc = Ret r ->
    Forall (fun e => is_dict e = true) l /\
    exists l',
      r = acc ++ l' /\
      Forall2 (classified rt) (filter (fun e => negb (reserved e)) l) l'.
Proof.
  induction l as [|e rest IH]; intros acc r H; simpl in H.
  - injection H as <-. split; [constructor|].
    exists []. split; [now rewrite app_nil_r | constructor].
  - destruct e as [| | | | | |d]; simpl in H; try discriminate.
    fold (field d (lit "check") (JStr [])) in H.
    change (filter _ (JObj d :: rest)) with
      (if negb (reserved (JObj d))
       then JObj d :: filter (fun e => negb (reserved e)) rest
       else filter (fun e => negb (reserved e)) rest).
    unfold reserved at 1. simpl check_of.
    fold (field d (lit "check") (JStr [])).
    destruct (in_strs (field d (lit "check") (JStr [])) RESERVED); simpl.
    + apply IH in H. destruct H as (Hd & l' & -> & HF).
      split; [now constructor|]. exists l'. now split.
    + apply IH in H. destruct H as (Hd & l' & -> & HF).
      split; [now constructor|].
      eexists (_ :: l'). split; [now rewrite <- app_assoc|].
      constructor; [|assumption]. exists d. split; reflexivity.
Qed.

Lemma classify_first_non_dict (l1 : list json) (v : json) (l2 : list json) :
  forall acc,
    Forall (fun e => is_dict e = true) l1 ->
    is_dict v = false ->
    classify rt (l1 ++ v :: l2) acc = Raise (AttributeError v (lit "get")).
Proof.
  induction l1 as [|e l1 IH]; intros acc Hd Hv; simpl.
  - destruct v; simpl in *; try reflexivity; discriminate.
  - inversion Hd as [|? ? He Hd']; subst.
    destruct e as [| | | | | |d]; simpl in He; try discriminate. simpl.
    destruct (in_strs _ RESERVED); simpl; now apply IH.
Qed.

Lemma classify_dicts (l : list json) :
  forall acc,
    Forall (fun e => is_dict e = true) l ->
    exists r, classify rt l acc = Ret r.
Proof.
  induction l as [|e l IH]; intros acc Hd; simpl.
  - now eexists.
  - inversion Hd as [|? ? He Hd']; subst.
    destruct e as [| | | | | |d]; simpl in He; try discriminate. simpl.
    destruct (in_strs _ RESERVED); simpl; now apply IH.
Qed.

Lemma classified_well (e e' : json) :
  classified rt e e' -> well_classified e'.
Proof.
  intros (d & -> & ->). eexists. split.
  - simpl. rewrite dict_get_set_same. reflexivity.
  - apply normalize_status_allowed.
Qed.

Lemma classified_check (e e' : json) :
  classified rt e e' -> check_of e' = check_of e.
Proof.
  intros (d & -> & ->). simpl.
  rewrite dict_get_set_other; [reflexivity|]. vm_compute. discriminate.
Qed.

(** ** The aggregator *)

Lemma well_classified_status (e : json) :
  well_classified e ->
  exists n, py_getitem e (lit "_norm_status") = Ret (JStr n) /\
            status_of e = JStr n /\ (n = OK \/ n = WARN \/ n = FAIL).
Proof.
  intros (n & Hg & Hn). exists n. split; [assumption|]. split.
  - destruct e; simpl in *; try discriminate.
    destruct (dict_get (lit "_norm_status") d); now inversion Hg.
  - simpl in Hn. intuition.
Qed.

Lemma tally_cons (n : pystr) (e : json) (l : list json) :
  tally n (e :: l) = (if has_status n e then 1 else 0) + tally n l.
Proof.
  unfold tally. cbn [filter].
  destruct (has_status n e); cbn [List.length]; lia.
Qed.

Lemma tally_nonneg (n : pystr) (l : list json) : 0 <= tally n l.
Proof. unfold tally. lia. Qed.

Lemma score_status_str (s : pystr) :
  score_status (JStr s) = Ret (weight (JStr s)).
Proof.
  unfold weight, score_status.
  now destruct (dict_get s [(OK, 0); (WARN, 1); (FAIL, 2)]).
Qed.

Lemma aggregate_spec (l : list json) :
  forall a b c s fs,
    Forall well_classified l ->
    aggregate l [(OK, a); (WARN, b); (FAIL, c)] (JStr s) fs =
    Ret ([(OK, a + tally OK l); (WARN, b + tally WARN l);
          (FAIL, c + tally FAIL l)],
         running_worst (JStr s) l,
         fs ++ filter deviates l).
Proof.
  induction l as [|e l IH]; intros a b c s fs Hw.
  - simpl. unfold tally. simpl. now rewrite !Z.add_0_r, app_nil_r.
  - inversion Hw as [|? ? He Hl]; subst.
    destruct (well_classified_status e He) as (n & Hg & Hs & Hn).
    cbn [aggregate]. rewrite Hg. cbn [bind].
    rewrite !tally_cons. unfold has_status, deviates.
    cbn [filter running_worst fold_left]. unfold deviates. rewrite Hs.
    fold (running_worst
            (if weight (JStr n) >? weight (JStr s) then JStr n else JStr s) l).
    assert (forall a' b' c' fs',
              aggregate l [(OK, a'); (WARN, b'); (FAIL, c')]
                (if weight (JStr n) >? weight (JStr s)
                 then JStr n else JStr s) fs' =
              Ret ([(OK, a' + tally OK l); (WARN, b' + tally WARN l);
                    (FAIL, c' + tally FAIL l)],
                   running_worst
                     (if weight (JStr n) >? weight (JStr s)
                      then JStr n else JStr s) l,
                   fs' ++ filter deviates l)) as IH'.
    { intros a' b' c' fs'.
      destruct (weight (JStr n) >? weight (JStr s)); now apply IH. }
    destruct Hn as [-> | [-> | ->]].
    + change (counts_incr [(OK, a); (WARN, b); (FAIL, c)] (JStr OK))
        with (Ret [(OK, a + 1); (WARN, b); (FAIL, c)]).
      cbn [bind]. rewrite !score_status_str. cbn [bind].
      change (in_strs (JStr OK) [WARN; FAIL]) with false.
      change (str_eqb OK OK) with true. change (str_eqb OK WARN) with false.
      change (str_eqb OK FAIL) with false.
      cbv iota. rewrite IH'.
      now rewrite ?Z.add_assoc, ?Z.add_0_r.
    + change (counts_incr [(OK, a); (WARN, b); (FAIL, c)] (JStr WARN))
        with (Ret [(OK, a); (WARN, b + 1); (FAIL, c)]).
      cbn [bind]. rewrite !score_status_str. cbn [bind].
      change (in_strs (JStr WARN) [WARN; FAIL]) with true.
      change (str_eqb WARN OK) with false.
      change (str_eqb WARN WARN) with true.
      change (str_eqb WARN FAIL) with false.
      cbv iota. rewrite IH'.
      now rewrite ?Z.add_assoc, ?Z.add_0_r, <- app_assoc.
    + change (counts_incr [(OK, a); (WARN, b); (FAIL, c)] (JStr FAIL))
        with (Ret [(OK, a); (WARN, b); (FAIL, c + 1)]).
      cbn [bind]. rewrite !score_status_str. cbn [bind].
      change (in_strs (JStr FAIL) [WARN; FAIL]) with true.
      change (str_eqb FAIL OK) with false.
      change (str_eqb FAIL WARN) with false.
      change (str_eqb FAIL FAIL) with true.
      cbv iota. rewrite IH'.
      now rewrite ?Z.add_assoc, ?Z.add_0_r, <- app_assoc.
Qed.

Lemma running_worst_spec (l : list json) :
  forall worst b c,
    Forall well_classified l ->
    0 <= b -> 0 <= c ->
    worst_agrees worst b c ->
    worst_agrees (running_worst worst l)
      (b + tally WARN l) (c + tally FAIL l) /\
    weight (running_worst worst l) =
      Z.max (weight worst) (max_score l).
Proof.
  induction l as [|e l IH]; intros worst b c Hw Hb Hc Hinv.
  - simpl. unfold tally. simpl. rewrite !Z.add_0_r. split; [assumption|].
    destruct Hinv as [(-> & _) | [(-> & _) | (-> & _)]]; reflexivity.
  - inversion Hw as [|? ? He Hl]; subst.
    destruct (well_classified_status e He) as (n & _ & Hs & Hn).
    rewrite !tally_cons. unfold has_status.
    cbn [running_worst fold_left max_score fold_right].
    fold (running_worst
            (if weight (status_of e) >? weight worst
             then status_of e else worst) l).
    fold (max_score l). rewrite Hs.
    pose proof (tally_nonneg WARN l). pose proof (tally_nonneg FAIL l).
    destruct Hn as [-> | [-> | ->]];
      destruct Hinv as [(-> & ? & ?) | [(-> & ? & ?) | (-> & ?)]];
      match goal with
      | |- context [if ?s >? ?t then _ else _] =>
          let v := eval vm_compute in (s >? t) in
          change (s >? t) with v
      end;
      match goal with
      | |- context [str_eqb ?x WARN] =>
          let v := eval vm_compute in (str_eqb x WARN) in
          change (str_eqb x WARN) with v
      end;
      match goal with
      | |- context [str_eqb ?x FAIL] =>
          let v := eval vm_compute in (str_eqb x FAIL) in
          change (str_eqb x FAIL) with v
      end;
      cbv iota;
      match goal with
      | |- worst_agrees (running_worst ?w l) (b + (?i + _)) (c + (?j + _)) /\ _ =>
          destruct (IH w (b + i) (c + j) Hl) as [IH1 IH2];
          [lia | lia | unfold worst_agrees; intuition lia |];
          split;
          [ replace (b + (i + tally WARN l)) with (b + i + tally WARN l)
              by lia;
            replace (c + (j + tally FAIL l)) with (c + j + tally FAIL l)
              by lia;
            exact IH1
          | rewrite IH2;
            change (weight (JStr OK)) with 0;
            change (weight (JStr WARN)) with 1;
            change (weight (JStr FAIL)) with 2; lia ]
      end.
Qed.

(** ** The run as a whole *)

Lemma classified_all_well (l l' : list json) :
  Forall2 (classified rt) l l' -> Forall well_classified l'.
Proof.
  induction 1; constructor; [eapply classified_well; eassumption | assumption].
Qed.

Lemma analyse_spec (w : world) (logdir : pystr) (fs : list pystr)
    (st : locals) :
  analyse rt w logdir fs = Ret st ->
  log_files st = fs /\
  all_entries st = flat_map (file_records rt w logdir) fs /\
  all_errors st = flat_map (file_errors rt w logdir) fs /\
  Forall (fun e => is_dict e = true) (all_entries st) /\
  Forall2 (classified rt)
    (filter (fun e => negb (reserved e)) (all_entries st))
    (check_entries st) /\
  counts st = [(OK, tally OK (check_entries st));
               (WARN, tally WARN (check_entries st));
               (FAIL, tally FAIL (check_entries st))] /\
  worst st = running_worst (JStr OK) (check_entries st) /\
  findings st = filter deviates (check_entries st) /\
  fail_count st = tally FAIL (check_entries st) /\
  risk st = risk_level (fail_count st).
Proof.
  unfold analyse. rewrite read_all_spec. cbn [app].
  destruct (classify rt _ []) as [ce|] eqn:Hc; [|discriminate].
  apply classify_spec in Hc. destruct Hc as (Hd & l' & -> & HF).
  cbn [app bind].
  rewrite (aggregate_spec l' 0 0 0 OK [])
    by (eapply classified_all_well; eassumption).
  cbn [bind app Z.add].
  change (counts_getitem
            [(OK, tally OK l'); (WARN, tally WARN l'); (FAIL, tally FAIL l')]
            (JStr FAIL))
    with (Ret (A := Z) (tally FAIL l')).
  cbn [bind]. intros H. injection H as <-. cbn. repeat split; assumption.
Qed.

Lemma sorted_nil (l : list pystr) : sorted l = [] <-> l = [].
Proof.
  split; intros H.
  - pose proof (sorted_perm l) as P. rewrite H in P.
    now apply Permutation_sym, Permutation_nil in P.
  - now subst.
Qed.

(** *** Writing *)

Lemma has_surrogate_app (a b : pystr) :
  has_surrogate (a ++ b) = has_surrogate a || has_surrogate b.
Proof. apply existsb_app. Qed.

Lemma write_chunks_app (a b : list (res pystr)) :
  forall acc,
    write_chunks (a ++ b) acc =
    (t <- write_chunks a acc ;; write_chunks b t).
Proof.
  induction a as [|c a IH]; intros acc; [reflexivity|].
  cbn [app write_chunks]. destruct c as [t|e]; cbn [bind]; [|reflexivity].
  unfold rep_write. destruct (has_surrogate t); cbn [bind]; [reflexivity|].
  apply IH.
Qed.

Lemma write_chunks_acc (chunks : list (res pystr)) :
  forall acc,
    write_chunks chunks acc =
    (t <- write_chunks chunks [] ;; Ret (acc ++ t)).
Proof.
  induction chunks as [|c chunks IH]; intros acc.
  - cbn. now rewrite app_nil_r.
  - cbn [write_chunks]. destruct c as [t|e]; cbn [bind]; [|reflexivity].
    unfold rep_write. destruct (has_surrogate t); cbn [bind]; [reflexivity|].
    rewrite (IH (acc ++ t)), (IH ([] ++ t)).
    destruct (write_chunks chunks []); cbn [bind app]; [|reflexivity].
    now rewrite app_assoc.
Qed.

Lemma write_chunks_texts (texts : list pystr) :
  forall acc r,
    write_chunks (map Ret texts) acc = Ret r -> r = acc ++ List.concat texts.
Proof.
  induction texts as [|t texts IH]; intros acc r H; cbn in H.
  - injection H as <-. cbn. now rewrite app_nil_r.
  - unfold rep_write in H. destruct (has_surrogate t); [discriminate|].
    cbn [bind] in H. apply IH in H. subst r. cbn [List.concat].
    now rewrite app_assoc.
Qed.

(** What is written stays in front of what is written later. *)
Lemma write_chunks_extends (chunks : list (res pystr)) :
  forall acc r,
    write_chunks chunks acc = Ret r -> exists more, r = acc ++ more.
Proof.
  intros acc r H. rewrite write_chunks_acc in H.
  destruct (write_chunks chunks []) as [t|]; [|discriminate].
  injection H as <-. now exists t.
Qed.

(** A run of texts written one after the other shows in the file. *)
Lemma write_chunks_occurs (pre post : list (res pystr)) (texts : list pystr)
    (r : pystr) :
  write_chunks (pre ++ map Ret texts ++ post) [] = Ret r ->
  occurs_in (List.concat texts) r.
Proof.
  intros H. rewrite write_chunks_app in H.
  destruct (write_chunks pre []) as [r1|] eqn:H1; [|discriminate].
  cbn [bind] in H. rewrite write_chunks_app in H.
  destruct (write_chunks (map Ret texts) r1) as [r2|] eqn:H2; [|discriminate].
  cbn [bind] in H. apply write_chunks_texts in H2.
  apply write_chunks_extends in H. destruct H as (more & ->).
  subst r2. exists r1, more. now rewrite <- app_assoc.
Qed.


(** The title and the timestamp are always written; the timestamp then
    stands between the fixed heading and the rest. *)
Lemma write_report_timestamp (now : pystr) (st : locals) :
  has_surrogate now = false ->
  write_chunks (report_chunks rt now st) [] =
  (t <- write_chunks (body_chunks rt st) [] ;;
   Ret (report_head ++ now ++ nl ++ nl ++ t)).
Proof.
  intros Hnow. unfold report_chunks. cbn [app write_chunks bind].
  unfold rep_write.
  change (has_surrogate (lit "# Security baseline-rapport" ++ nl ++ nl))
    with false.
  cbn [bind]. rewrite !has_surrogate_app, Hnow.
  change (has_surrogate (lit "**Genererad:** ")) with false.
  change (has_surrogate nl) with false. cbn [orb bind].
  rewrite write_chunks_acc.
  destruct (write_chunks (body_chunks rt st) []); cbn [bind];
    [|reflexivity].
  unfold report_head. cbn [app]. now rewrite <- !app_assoc.
Qed.

(** *** The branches of main *)

Lemma main_finished (w : world) (st : locals) (path report : pystr)
    (out : list pystr) (code : Z) :
  main rt w = Finished st path report out code ->
  config_error w = false /\
  analyse rt w (resolve w (nth 1 (argv w) []))
    (sorted (glob_jsonl w (resolve w (nth 1 (argv w) [])))) = Ret st /\
  write_chunks (report_chunks rt (now w) st) [] = Ret report /\
  path = resolve w (nth 2 (argv w) []) /\
  code = (if tally FAIL (check_entries st) =? 0 then 0 else 1).
Proof.
  unfold main, print_and_exit, not_a_directory, config_error. intros H.
  destruct (negb (Nat.eqb (List.length (argv w)) 3));
    [destruct (print_raises w _); discriminate|].
  destruct (resolve_raises w (nth 1 (argv w) [])); [discriminate|].
  destruct (resolve_raises w (nth 2 (argv w) [])); [discriminate|].
  destruct (exists_raises w _); [discriminate|].
  destruct (negb (path_exists w _));
    [destruct (print_raises w _); discriminate|].
  destruct (is_dir_raises w _); [discriminate|].
  destruct (negb (path_is_dir w _));
    [destruct (print_raises w _); discriminate|].
  destruct (glob_raises w _); [discriminate|].
  cbn [orb].
  destruct (sorted (glob_jsonl w _)) as [|f fs] eqn:E;
    [destruct (print_raises w _); discriminate|].
  assert (glob_jsonl w (resolve w (nth 1 (argv w) [])) <> []) as Hg.
  { intros C. rewrite C in E. discriminate. }
  destruct (analyse rt w _ (f :: fs)) as [st'|] eqn:Ha; [|discriminate].
  pose proof (analyse_spec _ _ _ _ Ha) as (_ & _ & _ & _ & _ & Hk & _).
  unfold report_and_exit in H.
  destruct (mkdir_raises w _); [discriminate|].
  destruct (open_write_raises w _); [discriminate|].
  destruct (write_chunks _ []) as [r|] eqn:Hr; [|discriminate].
  destruct (close_raises w _); [discriminate|].
  destruct (print_raises w _); [discriminate|].
  rewrite Hk in H.
  change (counts_getitem _ (JStr FAIL))
    with (Ret (A := Z) (tally FAIL (check_entries st'))) in H.
  injection H as E1 E2 E3 E4 E5. subst.
  split; [now destruct (glob_jsonl w _)|]. now repeat split.
Qed.



(** On such a machine, without a configuration error, the files are read
    and the records classified and counted. *)
Lemma main_no_config_error (w : world) :
  quiet_start w ->
  config_error w = false ->
  main rt w =
  match
    analyse rt w (resolve w (nth 1 (argv w) []))
      (sorted (glob_jsonl w (resolve w (nth 1 (argv w) []))))
  with
  | Raise e => Crashed e false
  | Ret st => report_and_exit rt w (resolve w (nth 2 (argv w) [])) st
  end.
Proof.
  intros (Hres & Hex & Hdir & Hglob & Hprint).
  unfold config_error, main, not_a_directory. intros H.
  destruct (negb (Nat.eqb (List.length (argv w)) 3)); [discriminate|].
  rewrite !Hres, Hex.
  destruct (negb (path_exists w _)); [discriminate|].
  rewrite Hdir.
  destruct (negb (path_is_dir w _)); [discriminate|].
  rewrite Hglob. cbn [orb] in *.
  destruct (sorted (glob_jsonl w _)) eqn:E; [|reflexivity].
  apply (proj1 (sorted_nil _)) in E. rewrite E in H. discriminate.
Qed.

Lemma tally_total (l : list json) :
  Forall well_classified l ->
  tally OK l + tally WARN l + tally FAIL l = Z.of_nat (List.length l).
Proof.
  induction 1 as [|e l He Hl IH].
  - reflexivity.
  - rewrite !tally_cons. cbn [List.length].
    destruct (well_classified_status e He) as (n & _ & Hs & Hn).
    unfold has_status. rewrite Hs.
    destruct Hn as [-> | [-> | ->]];
      repeat match goal with
      | |- context [str_eqb ?x ?y] =>
          let v := eval vm_compute in (str_eqb x y) in
          change (str_eqb x y) with v
      end; cbv iota; lia.
Qed.

Lemma classified_reserved (l l' : list json) :
  Forall2 (classified rt) l l' ->
  Forall (fun e => reserved e = false) l ->
  Forall (fun e => reserved e = false) l'.
Proof.
  induction 1 as [|e e' l l' He Hl IH]; intros Hr; constructor;
    inversion Hr; subst.
  - unfold reserved. now rewrite (classified_check _ _ He).
  - now apply IH.
Qed.

Lemma unreserved_filter (l : list json) :
  Forall (fun e => reserved e = false)
    (filter (fun e => negb (reserved e)) l).
Proof.
  apply Forall_forall. intros e He. apply filter_In in He.
  destruct He as [_ He]. now destruct (reserved e).
Qed.

Lemma Forall_filter {A} (P : A -> Prop) (f : A -> bool) (l : list A) :
  Forall P l -> Forall P (filter f l).
Proof.
  rewrite !Forall_forall. intros H x Hx. apply filter_In in Hx. now apply H.
Qed.

Lemma status_neq : OK <> WARN /\ OK <> FAIL /\ WARN <> FAIL.
Proof. repeat split; intros H; vm_compute in H; discriminate. Qed.

(** ** The tallies *)

(** C1. When a run completes, every classified record carries OK, WARN or
    FAIL; the three counters count the classified records by status and add
    up to the number of decoded records whose [check] is neither "run_start"
    nor "run_summary"; the classified records are those records, in order;
    and no reserved record is among the classified records or the findings,
    whatever its status. *)
Theorem tallies_cover_unreserved_records
    (w : world) (st : locals) (path report : pystr) (out : list pystr)
    (code : Z) :
  main rt w = Finished st path report out code ->
  let ce := check_entries st in
  let unreserved := filter (fun e => negb (reserved e)) (all_entries st) in
  Forall well_classified ce /\
  counts st = [(OK, tally OK ce); (WARN, tally WARN ce);
               (FAIL, tally FAIL ce)] /\
  tally OK ce + tally WARN ce + tally FAIL ce
    = Z.of_nat (List.length unreserved) /\
  all_entries st =
    flat_map (file_records rt w (resolve w (nth 1 (argv w) [])))
      (log_files st) /\
  Forall2 (classified rt) unreserved ce /\
  Forall (fun e => reserved e = false) ce /\
  findings st = filter deviates ce /\
  Forall (fun e => reserved e = false) (findings st).
Proof.
  intros H ce unreserved. apply main_finished in H.
  destruct H as (_ & Ha & _). apply analyse_spec in Ha.
  destruct Ha as (Hlf & Hall & _ & _ & HF & Hc & _ & Hfi & _).
  assert (Forall well_classified ce) as Hw
    by (eapply classified_all_well; exact HF).
  assert (Forall (fun e => reserved e = false) ce) as Hr
    by (eapply classified_reserved; [exact HF | apply unreserved_filter]).
  repeat split; try assumption.
  - rewrite (tally_total ce Hw). f_equal. symmetry.
    eapply Forall2_length. exact HF.
  - now rewrite Hlf.
  - rewrite Hfi. now apply Forall_filter.
Qed.

(** ** The worst status *)

(** C5. When a run completes, the worst status is FAIL exactly when the
    FAIL counter is positive, WARN exactly when the WARN counter is positive
    and the FAIL counter is zero, and OK exactly when both are zero; its
    severity is the largest severity among the classified records. *)
Theorem worst_status_from_counts
    (w : world) (st : locals) (path report : pystr) (out : list pystr)
    (code : Z) :
  main rt w = Finished st path report out code ->
  exists n_ok n_warn n_fail,
    counts st = [(OK, n_ok); (WARN, n_warn); (FAIL, n_fail)] /\
    0 <= n_warn /\ 0 <= n_fail /\
    (worst st = JStr FAIL <-> 0 < n_fail) /\
    (worst st = JStr WARN <-> 0 < n_warn /\ n_fail = 0) /\
    (worst st = JStr OK <-> n_warn = 0 /\ n_fail = 0) /\
    worst st = running_worst (JStr OK) (check_entries st) /\
    score_status (worst st) = Ret (max_score (check_entries st)).
Proof.
  intros H. apply main_finished in H.
  destruct H as (_ & Ha & _). apply analyse_spec in Ha.
  destruct Ha as (_ & _ & _ & _ & HF & Hc & Hw & _).
  assert (Forall well_classified (check_entries st)) as Hwc
    by (eapply classified_all_well; exact HF).
  destruct (running_worst_spec (check_entries st) (JStr OK) 0 0 Hwc)
    as [Hinv Hmax]; try lia.
  { left. repeat split. }
  rewrite <- Hw in Hinv, Hmax. cbn [Z.add] in Hinv.
  pose proof (tally_nonneg WARN (check_entries st)) as Hb.
  pose proof (tally_nonneg FAIL (check_entries st)) as Hf.
  pose proof (tally_nonneg OK (check_entries st)) as Ho.
  exists (tally OK (check_entries st)), (tally WARN (check_entries st)),
    (tally FAIL (check_entries st)).
  destruct status_neq as (N1 & N2 & N3).
  split; [assumption|]. split; [assumption|]. split; [assumption|].
  split; [|split; [|split; [|split; [assumption|]]]].
  - destruct Hinv as [(E & ? & ?) | [(E & ? & ?) | (E & ?)]]; rewrite E;
      split; intros; try lia; try congruence.
  - destruct Hinv as [(E & ? & ?) | [(E & ? & ?) | (E & ?)]]; rewrite E;
      split; intros; try lia; try congruence.
  - destruct Hinv as [(E & ? & ?) | [(E & ? & ?) | (E & ?)]]; rewrite E;
      split; intros; try lia; try congruence.
  - assert (0 <= max_score (check_entries st)) as Hpos.
    { clear. induction (check_entries st); simpl; lia. }
    change (weight (JStr OK)) with 0 in Hmax.
    rewrite Z.max_r in Hmax by exact Hpos. rewrite <- Hmax.
    destruct Hinv as [(E & _) | [(E & _) | (E & _)]]; rewrite E;
      apply score_status_str.
Qed.

(** ** The risk label *)

(** C6. When a run completes, the risk label is the low label when the FAIL
    counter is 0, the medium label when it is 1 and the high label when it is
    2 or more; the three labels differ; and two runs with the same FAIL
    counter have the same label, whatever their WARN counters. *)
Theorem risk_from_fail_count
    (w1 w2 : world) (st1 st2 : locals) (path1 path2 report1 report2 : pystr)
    (out1 out2 : list pystr) (code1 code2 : Z) :
  main rt w1 = Finished st1 path1 report1 out1 code1 ->
  main rt w2 = Finished st2 path2 report2 out2 code2 ->
  exists n1 n2,
    counts_getitem (counts st1) (JStr FAIL) = Ret n1 /\
    counts_getitem (counts st2) (JStr FAIL) = Ret n2 /\
    0 <= n1 /\
    (n1 = 0 -> risk st1 = risk_low) /\
    (n1 = 1 -> risk st1 = risk_medium) /\
    (2 <= n1 -> risk st1 = risk_high) /\
    (risk_low <> risk_medium /\ risk_low <> risk_high
     /\ risk_medium <> risk_high) /\
    (n1 = n2 -> risk st1 = risk st2).
Proof.
  intros H1 H2. apply main_finished in H1, H2.
  destruct H1 as (_ & Ha1 & _). destruct H2 as (_ & Ha2 & _).
  apply analyse_spec in Ha1, Ha2.
  destruct Ha1 as (_ & _ & _ & _ & _ & Hc1 & _ & _ & Hf1 & Hr1).
  destruct Ha2 as (_ & _ & _ & _ & _ & Hc2 & _ & _ & Hf2 & Hr2).
  exists (tally FAIL (check_entries st1)), (tally FAIL (check_entries st2)).
  rewrite Hc1, Hc2, Hr1, Hr2, Hf1, Hf2.
  pose proof (tally_nonneg FAIL (check_entries st1)).
  repeat split; try assumption.
  - intros ->. reflexivity.
  - intros ->. reflexivity.
  - intros Hn. unfold risk_level.
    destruct (Z.eqb_spec (tally FAIL (check_entries st1)) 0); [lia|].
    destruct (Z.eqb_spec (tally FAIL (check_entries st1)) 1); [lia|].
    reflexivity.
  - intros E. vm_compute in E. discriminate.
  - intros E. vm_compute in E. discriminate.
  - intros E. vm_compute in E. discriminate.
  - intros ->. reflexivity.
Qed.

(** With objects only, lines 57 to 94 raise nothing. *)
Lemma analyse_dicts (w : world) (logdir : pystr) (files : list pystr) :
  Forall (fun e => is_dict e = true)
    (flat_map (file_records rt w logdir) files) ->
  exists st, analyse rt w logdir files = Ret st.
Proof.
  intros Hd. unfold analyse. rewrite read_all_spec. cbn [app].
  destruct (classify_dicts _ [] Hd) as (r & Hr). rewrite Hr.
  pose proof (classify_spec _ _ _ Hr) as (_ & l' & -> & HF).
  cbn [bind app].
  rewrite (aggregate_spec l' 0 0 0 OK [])
    by (eapply classified_all_well; eassumption).
  cbn [bind app Z.add].
  change (counts_getitem
            [(OK, tally OK l'); (WARN, tally WARN l'); (FAIL, tally FAIL l')]
            (JStr FAIL))
    with (Ret (A := Z) (tally FAIL l')).
  cbn [bind]. now eexists.
Qed.


(** ** Normalisation of the status *)

(** C2. A record that is not reserved is classified with the status FAIL
    when its [status] field is absent or not a string; otherwise with the
    trimmed, upper-cased [status] when that is OK, WARN or FAIL, and with
    FAIL in every other case.  "ok", " Ok " and "OK" give OK; 42, a missing
    field and "banana" give FAIL. *)
Theorem normalized_status_rule :
  (forall d : dict json,
     reserved (JObj d) = false ->
     exists e' n,
       classify rt [JObj d] [] = Ret [e'] /\
       py_getitem e' (lit "_norm_status") = Ret (JStr n) /\
       ((forall s, dict_get (lit "status") d <> Some (JStr s)) -> n = FAIL) /\
       (forall s,
          dict_get (lit "status") d = Some (JStr s) ->
          (In (upper rt (strip s)) ALLOWED_STATUS -> n = upper rt (strip s)) /\
          (~ In (upper rt (strip s)) ALLOWED_STATUS -> n = FAIL))) /\
  (forall v n,
     classify rt [JObj [(lit "status", v)]] [] =
       Ret [JObj [(lit "status", v); (lit "_norm_status", JStr n)]] <->
     normalize_status rt v = n) /\
  normalize_status rt (JStr (lit "ok")) = OK /\
  normalize_status rt (JStr (lit " Ok ")) = OK /\
  normalize_status rt (JStr (lit "OK")) = OK /\
  normalize_status rt (JInt 42) = FAIL /\
  classify rt [JObj []] [] = Ret [JObj [(lit "_norm_status", JStr FAIL)]] /\
  normalize_status rt (JStr (lit "banana")) = FAIL.
Proof.
  split; [|split; [|repeat split; reflexivity]].
  - intros d Hr.
    exists (JObj (dict_set (lit "_norm_status")
                    (JStr (normalize_status rt (field d (lit "status") JNull)))
                    d)),
      (normalize_status rt (field d (lit "status") JNull)).
    split; [|split; [|split]].
    + unfold reserved in Hr. cbn [check_of] in Hr.
      cbn [classify py_get bind]. rewrite Hr. reflexivity.
    + cbn [py_getitem]. now rewrite dict_get_set_same.
    + intros Hn. unfold field.
      destruct (dict_get (lit "status") d) as [[]|]; try reflexivity.
      now destruct (Hn s).
    + intros s Hs. unfold field. rewrite Hs. unfold normalize_status.
      destruct (str_in (upper rt (strip s)) ALLOWED_STATUS) eqn:E.
      * split; [reflexivity|]. intros Hn. apply str_in_In in E. contradiction.
      * split; [|reflexivity]. intros Hi. apply str_in_In in Hi. congruence.
  - intros v n. cbn. split; intros H.
    + now inversion H.
    + now subst.
Qed.

(** ** Decode errors *)

Lemma errors_from_app (name : pystr) (l1 l2 : list pystr) :
  forall lineno,
    errors_from rt name lineno (l1 ++ l2) =
    errors_from rt name lineno l1
    ++ errors_from rt name (lineno + Z.of_nat (List.length l1)) l2.
Proof.
  induction l1 as [|l l1 IH]; intros lineno.
  - cbn. now rewrite Z.add_0_r.
  - cbn [app errors_from List.length]. rewrite IH, <- app_assoc.
    do 3 f_equal. lia.
Qed.

Lemma records_from_app (l1 l2 : list pystr) :
  records_from rt (l1 ++ l2) = records_from rt l1 ++ records_from rt l2.
Proof.
  induction l1 as [|l l1 IH]; cbn; [reflexivity|].
  now rewrite IH, app_assoc.
Qed.

(** ** Unreadable files *)

(** C4, as amended. A file that cannot be opened, or whose reading fails
    before it has delivered a line, leaves exactly one error, naming the
    file and the underlying error, and no record, and the files before and
    after it are read as usual.  A file whose reading fails later keeps the
    records and decode errors of the lines delivered, followed by that one
    error; when a line has already ended the loop by an exception, the
    file is not read further and the failure does not happen. *)
Theorem unreadable_file_one_error :
  (forall w logdir before lf after e,
     fails_at_once (open_read w logdir lf) = Some e ->
     read_all rt w logdir (before ++ lf :: after) [] [] =
     (flat_map (file_records rt w logdir) before
        ++ flat_map (file_records rt w logdir) after,
      flat_map (file_errors rt w logdir) before
        ++ [lf ++ lit ": Could not read file: " ++ e]
        ++ flat_map (file_errors rt w logdir) after)) /\
  (forall name lines e,
     read_jsonl_file rt name (Stream lines (Some e)) =
     match loop_raises rt lines with
     | None =>
         (fst (read_jsonl_file rt name (Stream lines None)),
          snd (read_jsonl_file rt name (Stream lines None))
            ++ [name ++ lit ": Could not read file: " ++ e])
     | Some _ => read_jsonl_file rt name (Stream lines None)
     end).
Proof.
  split.
  - intros w logdir before lf after e Hf.
    rewrite read_all_spec. cbn [app]. rewrite !flat_map_app.
    cbn [flat_map]. unfold file_records at 2, file_errors at 2.
    destruct (open_read w logdir lf) as [e'|[|l lines] [e'|]];
      try discriminate; injection Hf as ->; reflexivity.
  - intros name lines e. rewrite !read_jsonl_file_stream.
    destruct (loop_raises rt lines); [reflexivity|].
    cbn [fst snd]. now rewrite app_nil_r.
Qed.

(** ** Determinism of the report *)

Lemma analyse_ext (w1 w2 : world) (logdir : pystr) (fs : list pystr) :
  (forall d n, open_read w1 d n = open_read w2 d n) ->
  analyse rt w1 logdir fs = analyse rt w2 logdir fs.
Proof.
  intros H. unfold analyse. rewrite !read_all_spec. cbn [app].
  assert (forall lf,
            file_records rt w1 logdir lf = file_records rt w2 logdir lf)
    as E1 by (intros lf; unfold file_records; now rewrite H).
  assert (forall lf,
            file_errors rt w1 logdir lf = file_errors rt w2 logdir lf)
    as E2 by (intros lf; unfold file_errors; now rewrite H).
  now rewrite (flat_map_ext _ _ E1), (flat_map_ext _ _ E2).
Qed.

Lemma glob_sorted_same (w1 w2 : world) (logdir : pystr) :
  Permutation (listdir w1 logdir) (listdir w2 logdir) ->
  sorted (glob_jsonl w1 logdir) = sorted (glob_jsonl w2 logdir).
Proof.
  intros H. apply sorted_perm_invariant. unfold glob_jsonl.
  now apply filter_perm.
Qed.

(** C9. Two runs on the same command line, the same directory contents
    (listed in any order) and the same files end alike: the same exit, the
    same variables, and reports that are equal but for the timestamp that
    follows the fixed heading.  The files are read and listed in the sorted
    order of their names. *)
Theorem report_is_deterministic (w1 w2 : world) :
  same_inputs w1 w2 ->
  same_but_timestamp (now w1) (now w2) (main rt w1) (main rt w2) /\
  (forall st path report out code,
     main rt w1 = Finished st path report out code ->
     log_files st = sorted (glob_jsonl w1 (resolve w1 (nth 1 (argv w1) []))) /\
     StronglySorted str_le (log_files st) /\
     Permutation (glob_jsonl w1 (resolve w1 (nth 1 (argv w1) [])))
       (log_files st)).
Proof.
  intros (Hargv & Hcalls & Hls & Hop). split.
  - destruct Hcalls as (Hres & Hresr & Hex & Hexr & Hdir & Hdirr & Hglob
                        & Hmk & Hopw & Hcl & Hpr).
    unfold main, print_and_exit, not_a_directory.
    rewrite <- Hargv, <- !Hres, <- !Hresr, <- Hex, <- Hexr, <- Hdir,
      <- Hdirr, <- Hglob, <- !Hpr.
    destruct (negb (Nat.eqb (List.length (argv w1)) 3));
      [destruct (print_raises w1 _); now split|].
    destruct (resolve_raises w1 (nth 1 (argv w1) [])); [now split|].
    destruct (resolve_raises w1 (nth 2 (argv w1) [])); [now split|].
    destruct (exists_raises w1 _); [now split|].
    destruct (negb (path_exists w1 _));
      [destruct (print_raises w1 _); now split|].
    destruct (is_dir_raises w1 _); [now split|].
    destruct (negb (path_is_dir w1 _));
      [destruct (print_raises w1 _); now split|].
    destruct (glob_raises w1 _); [now split|].
    rewrite <- (glob_sorted_same w1 w2 _ (Hls _)).
    destruct (sorted (glob_jsonl w1 _)) as [|f fs] eqn:E;
      [destruct (print_raises w1 _); now split|].
    rewrite <- (analyse_ext w1 w2 _ _ Hop).
    destruct (analyse rt w1 _ (f :: fs)) as [st|e]; [|now split].
    unfold report_and_exit.
    rewrite <- Hmk, <- Hopw, <- Hcl, <- Hpr.
    destruct (mkdir_raises w1 _); [now split|].
    destruct (open_write_raises w1 _); [now split|].
    rewrite !write_report_timestamp by apply now_is_text.
    destruct (write_chunks (body_chunks rt st) []) as [t|e]; cbn [bind];
      [|now split].
    destruct (close_raises w1 _); [now split|].
    destruct (print_raises w1 _); [now split|].
    destruct (counts_getitem (counts st) (JStr FAIL)); [|now split].
    repeat split. now exists (nl ++ nl ++ t).
  - intros st path report out code H. apply main_finished in H.
    destruct H as (_ & Ha & _). apply analyse_spec in Ha.
    destruct Ha as (-> & _). split; [reflexivity|].
    split; [apply sorted_sorted | apply sorted_perm].
Qed.

(** ** What classification leaves alone *)

Lemma classified_keeps_fields (e e' : json) :
  classified rt e e' -> keeps_fields rt e e'.
Proof.
  intros (d & -> & ->). eexists d, _. split; [reflexivity|].
  split; [reflexivity|].
  assert (forall k, k <> lit "_norm_status" ->
          forall v default,
            field (dict_set (lit "_norm_status") v d) k default
            = field d k default) as Hfield.
  { intros k Hk v default. unfold field. now rewrite dict_get_set_other. }
  split; [|split; [|split]].
  - intros k Hk. now apply dict_get_set_other.
  - apply dict_get_set_same.
  - apply dict_set_keys.
  - unfold write_finding. cbn [py_get bind].
    fold (field (dict_set (lit "_norm_status")
                   (JStr (normalize_status rt (field d (lit "status") JNull)))
                   d) (lit "host") (JStr (lit "?"))).
    fold (field (dict_set (lit "_norm_status")
                   (JStr (normalize_status rt (field d (lit "status") JNull)))
                   d) (lit "os") (JStr (lit "?"))).
    fold (field (dict_set (lit "_norm_status")
                   (JStr (normalize_status rt (field d (lit "status") JNull)))
                   d) (lit "check") (JStr (lit "?"))).
    fold (field (dict_set (lit "_norm_status")
                   (JStr (normalize_status rt (field d (lit "status") JNull)))
                   d) (lit "details") (JStr [])).
    rewrite !Hfield by (intros E; vm_compute in E; discriminate).
    rewrite dict_get_set_same. reflexivity.
Qed.

(** C10, as amended. Classification changes a decoded record at the key
    [_norm_status] only, which it adds at the end, or overwrites in place
    when the decoded record already has it; every other field keeps its
    value and its place, so the report lines of a record show the decoded
    [host], [os], [check] and [details], with "?" and the empty string for
    the missing ones, beside the normalised status. *)
Theorem classification_keeps_other_fields
    (w : world) (st : locals) (path report : pystr) (out : list pystr)
    (code : Z) :
  main rt w = Finished st path report out code ->
  Forall2 (keeps_fields rt)
    (filter (fun e => negb (reserved e)) (all_entries st))
    (check_entries st) /\
  findings st = filter deviates (check_entries st).
Proof.
  intros H. apply main_finished in H.
  destruct H as (_ & Ha & _). apply analyse_spec in Ha.
  destruct Ha as (_ & _ & _ & _ & HF & _ & _ & Hfi & _).
  split; [|assumption].
  clear -HF. induction HF; constructor;
    [now apply classified_keeps_fields | assumption].
Qed.

(** ** Exit codes and records that are not objects *)



(** The first decoded record that is not an object ends lines 57 to 94 with
    an [AttributeError]. *)
Lemma analyse_non_object (w : world) (logdir : pystr) (files : list pystr)
    (l1 l2 : list json) (v : json) :
  flat_map (file_records rt w logdir) files = l1 ++ v :: l2 ->
  Forall (fun e => is_dict e = true) l1 ->
  is_dict v = false ->
  analyse rt w logdir files = Raise (AttributeError v (lit "get")).
Proof.
  intros Hl Hd Hv. unfold analyse. rewrite read_all_spec. cbn [app].
  rewrite Hl. now rewrite (classify_first_non_dict l1 v l2 [] Hd Hv).
Qed.

(** On a machine whose first calls do not raise, that record ends the run,
    before the report file is opened. *)
Lemma non_object_record_crashes (w : world) (l1 l2 : list json) (v : json) :
  quiet_start w ->
  config_error w = false ->
  decoded rt w = l1 ++ v :: l2 ->
  Forall (fun e => is_dict e = true) l1 ->
  is_dict v = false ->
  main rt w = Crashed (AttributeError v (lit "get")) false.
Proof.
  intros Hq Hc Hl Hd Hv. rewrite (main_no_config_error w Hq Hc).
  now rewrite (analyse_non_object w _ _ l1 l2 v Hl Hd Hv).
Qed.

End Properties.

(** ** The worked example and other runs *)

Lemma example_run :
  main Sample.rt Sample.example_world =
  Finished Sample.example_locals Sample.out_md Sample.example_report
    Sample.written_to 1.
Proof. vm_compute. reflexivity. Qed.

Lemma warn_run :
  main Sample.rt Sample.world_warn =
  Finished Sample.warn_locals Sample.out_md Sample.warn_report
    Sample.written_to 1.
Proof. vm_compute. reflexivity. Qed.

Lemma tallies_cover_unreserved_records_witness :
  main Sample.rt Sample.example_world =
    Finished Sample.example_locals Sample.out_md Sample.example_report
      Sample.written_to 1 /\
  Forall well_classified (check_entries Sample.example_locals) /\
  tally OK (check_entries Sample.example_locals)
  + tally WARN (check_entries Sample.example_locals)
  + tally FAIL (check_entries Sample.example_locals)
  = Z.of_nat
      (List.length
         (filter (fun e => negb (reserved e))
            (all_entries Sample.example_locals))) /\
  Forall (fun e => reserved e = false) (findings Sample.example_locals).
Proof.
  assert (main Sample.rt Sample.example_world =
          Finished Sample.example_locals Sample.out_md Sample.example_report
            Sample.written_to 1) as H by (vm_compute; reflexivity).
  split; [exact H|].
  destruct (tallies_cover_unreserved_records Sample.rt Sample.example_world
              _ _ _ _ _ H) as (Hw & _ & Hsum & _ & _ & _ & _ & Hf).
  exact (conj Hw (conj Hsum Hf)).
Defined.

Lemma worst_status_from_counts_witness :
  main Sample.rt Sample.world_warn =
    Finished Sample.warn_locals Sample.out_md Sample.warn_report
      Sample.written_to 1 /\
  exists n_ok n_warn n_fail,
    counts Sample.warn_locals = [(OK, n_ok); (WARN, n_warn); (FAIL, n_fail)] /\
    (worst Sample.warn_locals = JStr FAIL <-> 0 < n_fail) /\
    score_status (worst Sample.warn_locals)
      = Ret (max_score (check_entries Sample.warn_locals)).
Proof.
  assert (main Sample.rt Sample.world_warn =
          Finished Sample.warn_locals Sample.out_md Sample.warn_report
            Sample.written_to 1) as H by (vm_compute; reflexivity).
  split; [exact H|].
  destruct (worst_status_from_counts Sample.rt Sample.world_warn
              _ _ _ _ _ H)
    as (a & b & c & Hc & _ & _ & Hf & _ & _ & _ & Hm).
  exists a, b, c. exact (conj Hc (conj Hf Hm)).
Defined.

Lemma risk_from_fail_count_witness :
  main Sample.rt Sample.example_world =
    Finished Sample.example_locals Sample.out_md Sample.example_report
      Sample.written_to 1 /\
  main Sample.rt Sample.world_warn =
    Finished Sample.warn_locals Sample.out_md Sample.warn_report
      Sample.written_to 1 /\
  exists n1 n2,
    counts_getitem (counts Sample.example_locals) (JStr FAIL) = Ret n1 /\
    counts_getitem (counts Sample.warn_locals) (JStr FAIL) = Ret n2 /\
    (n1 = 1 -> risk Sample.example_locals = risk_medium) /\
    (n1 = n2 -> risk Sample.example_locals = risk Sample.warn_locals).
Proof.
  assert (main Sample.rt Sample.example_world =
          Finished Sample.example_locals Sample.out_md Sample.example_report
            Sample.written_to 1) as H1 by (vm_compute; reflexivity).
  assert (main Sample.rt Sample.world_warn =
          Finished Sample.warn_locals Sample.out_md Sample.warn_report
            Sample.written_to 1) as H2 by (vm_compute; reflexivity).
  split; [exact H1|]. split; [exact H2|].
  destruct (risk_from_fail_count Sample.rt _ _ _ _ _ _ _ _ _ _ _ _ H1 H2)
    as (n1 & n2 & G1 & G2 & _ & _ & Hm & _ & _ & He).
  exists n1, n2. exact (conj G1 (conj G2 (conj Hm He))).
Defined.

Lemma normalized_status_rule_witness :
  reserved Sample.rec_x = false /\
  exists e' n,
    classify Sample.rt [Sample.rec_x] [] = Ret [e'] /\
    py_getitem e' (lit "_norm_status") = Ret (JStr n) /\
    (In (upper Sample.rt (strip (lit "fail"))) ALLOWED_STATUS ->
     n = upper Sample.rt (strip (lit "fail"))).
Proof.
  split; [reflexivity|].
  destruct (proj1 (normalized_status_rule Sample.rt) _
              (eq_refl : reserved Sample.rec_x = false))
    as (e' & n & Hc & Hg & _ & Hs).
  exists e', n. split; [exact Hc|]. split; [exact Hg|].
  exact (proj1 (Hs (lit "fail") eq_refl)).
Defined.

Lemma unreadable_file_one_error_witness :
  fails_at_once (open_read Sample.world_ba Sample.logdir Sample.b_jsonl)
    = Some Sample.permission_denied /\
  read_all Sample.rt Sample.world_ba Sample.logdir
    ([Sample.a_jsonl] ++ Sample.b_jsonl :: []) [] [] =
  (flat_map (file_records Sample.rt Sample.world_ba Sample.logdir)
     [Sample.a_jsonl] ++ [],
   flat_map (file_errors Sample.rt Sample.world_ba Sample.logdir)
     [Sample.a_jsonl]
   ++ [Sample.b_jsonl ++ lit ": Could not read file: "
         ++ Sample.permission_denied]
   ++ []) /\
  read_jsonl_file Sample.rt Sample.a_jsonl
    (Stream Sample.a_lines (Some Sample.io_error)) =
  (fst (read_jsonl_file Sample.rt Sample.a_jsonl
          (Stream Sample.a_lines None)),
   snd (read_jsonl_file Sample.rt Sample.a_jsonl
          (Stream Sample.a_lines None))
   ++ [Sample.a_jsonl ++ lit ": Could not read file: " ++ Sample.io_error]).
Proof.
  split; [reflexivity|]. split.
  - exact (proj1 (unreadable_file_one_error Sample.rt)
             Sample.world_ba Sample.logdir [Sample.a_jsonl] Sample.b_jsonl []
             Sample.permission_denied eq_refl).
  - exact (proj2 (unreadable_file_one_error Sample.rt)
             Sample.a_jsonl Sample.a_lines Sample.io_error).
Defined.

Lemma sample_same_inputs : same_inputs Sample.world_ba Sample.world_ab.
Proof.
  repeat split; try reflexivity. intros d. apply perm_swap.
Defined.

Lemma report_is_deterministic_witness :
  same_inputs Sample.world_ba Sample.world_ab /\
  same_but_timestamp (lit "2024-05-01 12:00:00") (lit "2024-05-02 08:30:00")
    (main Sample.rt Sample.world_ba) (main Sample.rt Sample.world_ab).
Proof.
  split; [exact sample_same_inputs|].
  exact (proj1 (report_is_deterministic Sample.rt
                  Sample.world_ba Sample.world_ab sample_same_inputs)).
Defined.

Lemma classification_keeps_other_fields_witness :
  main Sample.rt Sample.example_world =
    Finished Sample.example_locals Sample.out_md Sample.example_report
      Sample.written_to 1 /\
  Forall2 (keeps_fields Sample.rt)
    (filter (fun e => negb (reserved e)) (all_entries Sample.example_locals))
    (check_entries Sample.example_locals).
Proof.
  assert (main Sample.rt Sample.example_world =
          Finished Sample.example_locals Sample.out_md Sample.example_report
            Sample.written_to 1) as H by (vm_compute; reflexivity).
  split; [exact H|].
  exact (proj1 (classification_keeps_other_fields Sample.rt
                  Sample.example_world _ _ _ _ _ H)).
Defined.

(** ** Where the script leaves the specification *)

(** C3. The line [42] is decoded into a record, without a decode error, and
    the run then ends on an [AttributeError] raised by the classifier; no
    report is written. *)
Theorem non_object_line_aborts_the_run :
  read_jsonl_file Sample.rt Sample.a_jsonl
    (open_read Sample.world_42 Sample.logdir Sample.a_jsonl)
    = ([Sample.rec_y; JInt 42], []) /\
  main Sample.rt Sample.world_42
    = Crashed (AttributeError (JInt 42) (lit "get")) false /\
  report_of (main Sample.rt Sample.world_42) = None /\
  touches_report (main Sample.rt Sample.world_42) = false.
Proof. repeat split; vm_compute; reflexivity. Qed.

(** C7. The same run has no usage or configuration error, and the object
    record of its file normalises to OK, yet the run does not complete: it
    ends on the uncaught exception, with the interpreter's status 1. *)
Theorem exit_code_of_aborted_run :
  config_error Sample.world_42 = false /\
  (forall e,
     In e (file_records Sample.rt Sample.world_42 Sample.logdir
             Sample.a_jsonl) ->
     normalize_status Sample.rt
       (match e with
        | JObj d => field d (lit "status") JNull
        | _ => JStr OK
        end) = OK) /\
  (forall st path report out code,
     main Sample.rt Sample.world_42 <> Finished st path report out code) /\
  exit_code (main Sample.rt Sample.world_42) = 1.
Proof.
  split; [reflexivity|]. split; [|split; [|reflexivity]].
  - intros e [<- | [<- | []]]; reflexivity.
  - intros st path report out code H. vm_compute in H. discriminate.
Qed.

(** C8. A line on which [json.loads] raises something else than
    [JSONDecodeError] ends the reading of its file.  The file has four
    lines: an object, an integer of 5000 digits, [not-json] and an object.
    The parse of the second line fails, yet no error carries its line
    number: the one error says that the file could not be read.  The third
    line fails to parse and leaves no error at all, and the fourth parses
    and leaves no record. *)
Theorem parse_failure_ends_the_file :
  json_loads Sample.rt (strip (Sample.line_digits ++ nl))
    = OtherError Sample.too_many_digits /\
  json_loads Sample.rt (strip (Sample.line_bad ++ nl))
    = JSONDecodeError Sample.expecting_value /\
  json_loads Sample.rt (strip (Sample.line_x ++ nl)) = Loaded Sample.rec_x /\
  read_jsonl_file Sample.rt Sample.a_jsonl Sample.digits_file
    = ([Sample.rec_y],
       [lit "a.jsonl: Could not read file: " ++ Sample.too_many_digits]) /\
  ~ In Sample.rec_x
      (fst (read_jsonl_file Sample.rt Sample.a_jsonl Sample.digits_file)) /\
  ~ In (lit "a.jsonl:3 JSONDecodeError: " ++ Sample.expecting_value)
      (snd (read_jsonl_file Sample.rt Sample.a_jsonl Sample.digits_file)).
Proof.
  assert (read_jsonl_file Sample.rt Sample.a_jsonl Sample.digits_file
          = ([Sample.rec_y],
             [lit "a.jsonl: Could not read file: " ++ Sample.too_many_digits]))
    as H by (vm_compute; reflexivity).
  split; [vm_compute; reflexivity|].
  split; [vm_compute; reflexivity|].
  split; [vm_compute; reflexivity|].
  split; [exact H|]. rewrite H. cbn [fst snd]. split.
  - intros [C|[]]. discriminate.
  - intros [C|[]]. vm_compute in C. discriminate.
Qed.

(** C4, as stated, fails on a file whose reading stops after two lines: the
    record of the first line and the decode error of the second are kept,
    and the file-level error comes third. *)
Lemma torn_file_keeps_its_records :
  cannot_be_read Sample.torn_file /\
  read_jsonl_file Sample.rt Sample.a_jsonl Sample.torn_file =
    ([Sample.rec_x],
     [lit "a.jsonl:2 JSONDecodeError: Expecting value: line 1 column 1 (char 0)";
      lit "a.jsonl: Could not read file: [Errno 5] Input/output error"]) /\
  ~ (exists e,
       read_jsonl_file Sample.rt Sample.a_jsonl Sample.torn_file
       = ([], [read_error Sample.a_jsonl e])).
Proof.
  split; [exact I|]. split; [vm_compute; reflexivity|].
  intros (e & H). vm_compute in H. discriminate.
Qed.

(** C10, as stated, fails on a record decoded with a [_norm_status] field of
    its own: classification adds no key and replaces the decoded value. *)
Lemma stale_norm_status_is_overwritten :
  classify Sample.rt [JObj Sample.rec_stale] [] = Ret [JObj Sample.rec_stale']
  /\ dict_get (lit "_norm_status") Sample.rec_stale = Some (JStr OK)
  /\ dict_get (lit "_norm_status") Sample.rec_stale' = Some (JStr FAIL)
  /\ map fst Sample.rec_stale' = map fst Sample.rec_stale
  /\ dict_get (lit "_norm_status") Sample.rec_stale'
     <> dict_get (lit "_norm_status") Sample.rec_stale.
Proof.
  repeat split; try (vm_compute; reflexivity).
  intros H. vm_compute in H. discriminate.
Qed.

(** ** More on the status *)

Section Status.
Context (rt : runtime).

Lemma lstrip_all_space (s : pystr) : all_space s -> lstrip s = [].
Proof.
  induction 1 as [|c s Hc Hs IH]; simpl; [reflexivity|]. now rewrite Hc.
Qed.

Lemma lstrip_app_space (pre s : pystr) :
  all_space pre -> lstrip (pre ++ s) = lstrip s.
Proof.
  induction 1 as [|c pre Hc Hp IH]; simpl; [reflexivity|]. now rewrite Hc.
Qed.

Lemma lstrip_app (s t : pystr) :
  lstrip (s ++ t) =
  match lstrip s with [] => lstrip t | _ => lstrip s ++ t end.
Proof.
  induction s as [|c s IH]; simpl; [now destruct (lstrip t)|].
  destruct (is_space c); [exact IH | reflexivity].
Qed.

Lemma rstrip_app_space (s post : pystr) :
  all_space post -> rstrip (s ++ post) = rstrip s.
Proof.
  intros H. unfold rstrip. rewrite rev_app_distr, lstrip_app_space;
    [reflexivity|].
  apply Forall_rev. exact H.
Qed.

Lemma strip_padding (pre s post : pystr) :
  all_space pre -> all_space post -> strip (pre ++ s ++ post) = strip s.
Proof.
  intros Hpre Hpost. unfold strip.
  rewrite (lstrip_app_space pre (s ++ post) Hpre), lstrip_app.
  destruct (lstrip s) as [|c u] eqn:E.
  - now rewrite (lstrip_all_space post Hpost).
  - now apply rstrip_app_space.
Qed.

Lemma ascii_upper_facts :
  forallb
    (fun n =>
       let c := N.of_nat n in
       (ascii_upper c <? 128)%N
       && Bool.eqb (is_space (ascii_upper c)) (is_space c)
       && (ascii_upper (ascii_upper c) =? ascii_upper c)%N)
    (seq 0 128) = true.
Proof. vm_compute. reflexivity. Qed.

Lemma ascii_upper_spec (c : N) :
  (c < 128)%N ->
  (ascii_upper c < 128)%N /\
  is_space (ascii_upper c) = is_space c /\
  ascii_upper (ascii_upper c) = ascii_upper c.
Proof.
  intros Hc. pose proof ascii_upper_facts as H.
  rewrite forallb_forall in H.
  specialize (H (N.to_nat c)). rewrite N2Nat.id in H. cbv zeta in H.
  assert (In (N.to_nat c) (seq 0 128)) as Hin by (apply in_seq; lia).
  apply H in Hin. apply andb_prop in Hin. destruct Hin as [Hin H3].
  apply andb_prop in Hin. destruct Hin as [H1 H2].
  apply N.ltb_lt in H1. apply Bool.eqb_prop in H2. apply N.eqb_eq in H3.
  now repeat split.
Qed.

Lemma upper_ascii (s : pystr) :
  is_ascii s -> upper rt s = map ascii_upper s.
Proof.
  induction 1 as [|c s Hc Hs IH]; [reflexivity|].
  unfold upper in *. cbn [flat_map map]. rewrite IH.
  unfold upper_char, ascii_upper.
  destruct ((97 <=? c) && (c <=? 122))%N; [reflexivity|].
  apply N.ltb_lt in Hc. now rewrite Hc.
Qed.

Lemma map_upper_ascii (s : pystr) :
  is_ascii s ->
  is_ascii (map ascii_upper s) /\
  map ascii_upper (map ascii_upper s) = map ascii_upper s.
Proof.
  induction 1 as [|c s Hc Hs [IH1 IH2]]; [split; [constructor|reflexivity]|].
  destruct (ascii_upper_spec c Hc) as (H1 & _ & H3).
  split; [now constructor|]. cbn [map]. now rewrite H3, IH2.
Qed.

Lemma lstrip_map_upper (s : pystr) :
  is_ascii s -> lstrip (map ascii_upper s) = map ascii_upper (lstrip s).
Proof.
  induction 1 as [|c s Hc Hs IH]; [reflexivity|].
  cbn [map lstrip]. destruct (ascii_upper_spec c Hc) as (_ & -> & _).
  destruct (is_space c); [exact IH | reflexivity].
Qed.

Lemma lstrip_ascii (s : pystr) : is_ascii s -> is_ascii (lstrip s).
Proof.
  induction 1 as [|c s Hc Hs IH]; [constructor|].
  cbn [lstrip]. destruct (is_space c); [exact IH | now constructor].
Qed.

Lemma strip_ascii (s : pystr) : is_ascii s -> is_ascii (strip s).
Proof.
  intros H. unfold strip, rstrip.
  apply Forall_rev, lstrip_ascii, Forall_rev, lstrip_ascii, H.
Qed.

Lemma strip_map_upper (s : pystr) :
  is_ascii s -> strip (map ascii_upper s) = map ascii_upper (strip s).
Proof.
  intros H. unfold strip, rstrip.
  rewrite (lstrip_map_upper s H), <- map_rev, lstrip_map_upper, map_rev;
    [reflexivity|].
  apply Forall_rev, lstrip_ascii, H.
Qed.

(** X1. Normalising a status that is already normalised changes nothing:
    the three statuses are fixed points, and so is every result. *)
Theorem normalize_status_idempotent (v : json) :
  normalize_status rt (JStr (normalize_status rt v)) = normalize_status rt v.
Proof.
  destruct (normalize_status_allowed rt v) as [H | [H | [H | []]]];
    rewrite <- H; reflexivity.
Qed.

(** X2. White space around the status text does not count, whatever its
    amount and kind. *)
Theorem normalize_status_ignores_padding (pre s post : pystr) :
  all_space pre -> all_space post ->
  normalize_status rt (JStr (pre ++ s ++ post)) = normalize_status rt (JStr s).
Proof.
  intros Hpre Hpost. unfold normalize_status.
  now rewrite (strip_padding pre s post Hpre Hpost).
Qed.

(** X3. The case of the ASCII letters of the status text does not count: a
    text and its upper-cased form normalise alike. *)
Theorem normalize_status_ignores_case (s : pystr) :
  is_ascii s ->
  normalize_status rt (JStr (upper rt s)) = normalize_status rt (JStr s).
Proof.
  intros H. unfold normalize_status.
  rewrite (upper_ascii s H), (strip_map_upper s H).
  pose proof (strip_ascii s H) as Hs.
  destruct (map_upper_ascii (strip s) Hs) as [Ha Hi].
  now rewrite (upper_ascii _ Ha), Hi, <- (upper_ascii _ Hs).
Qed.

(** X4. [score_status] raises [TypeError] exactly on a list or a dict,
    which cannot be hashed.  On any other value it returns 0, 1 or 2: 0 for
    the string OK only and 1 for the string WARN only, so every other
    value, string or not, weighs as much as FAIL. *)
Theorem score_status_range (v : json) :
  (forall e,
     score_status v = Raise e <->
     e = TypeError v /\ ((exists l, v = JArr l) \/ (exists d, v = JObj d))) /\
  (forall n, score_status v = Ret n -> n = 0 \/ n = 1 \/ n = 2) /\
  (score_status v = Ret 0 <-> v = JStr OK) /\
  (score_status v = Ret 1 <-> v = JStr WARN).
Proof.
  assert (forall s,
            (s = OK /\ score_status (JStr s) = Ret 0) \/
            (s = WARN /\ score_status (JStr s) = Ret 1) \/
            (s <> OK /\ s <> WARN /\ score_status (JStr s) = Ret 2)) as Hs.
  { intros s. unfold score_status. cbn [dict_get].
    destruct (str_eqb s OK) eqn:E1.
    { left. apply str_eqb_eq in E1. now split. }
    destruct (str_eqb s WARN) eqn:E2.
    { right; left. apply str_eqb_eq in E2. now split. }
    right; right. split; [|split].
    - intros ->. now rewrite str_eqb_refl in E1.
    - intros ->. now rewrite str_eqb_refl in E2.
    - now destruct (str_eqb s FAIL). }
  destruct status_neq as (N1 & _).
  assert (forall v n,
            (forall l, v <> JArr l) -> (forall d, v <> JObj d) ->
            score_status v = Ret n ->
            forall e,
              Ret n = Raise e <->
              e = TypeError v /\
              ((exists l, v = JArr l) \/ (exists d, v = JObj d))) as Hno.
  { intros v' n Hl Hd _ e. split; [discriminate|].
    intros (_ & [(l & H) | (d & H)]); [now destruct (Hl l) | now destruct (Hd d)]. }
  destruct v as [| b | z | f | s | l | d].
  1-4: (split; [apply Hno; (discriminate || reflexivity)|];
        split; [intros n H; injection H as <-; right; right; reflexivity|];
        split; split; discriminate).
  - destruct (Hs s) as [(-> & E) | [(-> & E) | (H1 & H2 & E)]]; rewrite E.
    + split; [apply Hno; (discriminate || exact E)|].
      split; [intros n H; injection H as <-; left; reflexivity|].
      split; split; try reflexivity; try discriminate;
        try (intros H; injection H; congruence).
    + split; [apply Hno; (discriminate || exact E)|].
      split; [intros n H; injection H as <-; right; left; reflexivity|].
      split; split; try reflexivity; try discriminate;
        try (intros H; injection H; congruence).
    + split; [apply Hno; (discriminate || exact E)|].
      split; [intros n H; injection H as <-; right; right; reflexivity|].
      split; split; try discriminate;
        try (intros H; injection H; congruence).
  - cbn [score_status]. split.
    { intros e. split.
      - intros H. injection H as <-. split; [reflexivity|]. left. now exists l.
      - now intros (-> & _). }
    split; [discriminate|]. split; split; discriminate.
  - cbn [score_status]. split.
    { intros e. split.
      - intros H. injection H as <-. split; [reflexivity|]. right. now exists d.
      - now intros (-> & _). }
    split; [discriminate|]. split; split; discriminate.
Qed.

End Status.

(** ** More on the decoder *)

Section Decoder.
Context (rt : runtime).

Lemma records_from_sound (lines : list pystr) (obj : json) :
  In obj (records_from rt lines) ->
  exists i line,
    nth_error lines i = Some line /\ strip line <> [] /\
    json_loads rt (strip line) = Loaded obj.
Proof.
  induction lines as [|l rest IH]; cbn [records_from]; [intros []|].
  intros H. apply in_app_or in H. destruct H as [H|H].
  - exists 0%nat, l. unfold line_records in H.
    destruct (strip l) as [|c s] eqn:E; [destruct H|].
    destruct (json_loads rt (c :: s)) eqn:L; try (now destruct H).
    destruct H as [<-|[]].
    split; [reflexivity|]. rewrite ?E. split; [discriminate|].
    now rewrite ?L.
  - destruct (IH H) as (i & line & Hn & Hs & Hl).
    exists (S i), line. now repeat split.
Qed.

Lemma errors_from_sound (name : pystr) (lines : list pystr) (err : pystr) :
  forall lineno,
    In err (errors_from rt name lineno lines) ->
    exists i line e,
      nth_error lines i = Some line /\ strip line <> [] /\
      json_loads rt (strip line) = JSONDecodeError e /\
      err = decode_error name (lineno + Z.of_nat i) e.
Proof.
  induction lines as [|l rest IH]; intros lineno; cbn [errors_from];
    [intros []|].
  intros H. apply in_app_or in H. destruct H as [H|H].
  - exists 0%nat, l. unfold line_errors in H.
    destruct (strip l) as [|c s] eqn:E; [destruct H|].
    destruct (json_loads rt (c :: s)) eqn:L; try (now destruct H).
    destruct H as [<-|[]]. exists msg.
    rewrite Z.add_0_r. split; [reflexivity|]. rewrite ?E.
    split; [discriminate|]. rewrite ?L. now split.
  - destruct (IH _ H) as (i & line & e & Hn & Hs & Hl & ->).
    exists (S i), line, e. repeat split; try assumption.
    f_equal. lia.
Qed.

Lemma loop_raises_sound (lines : list pystr) (e : pystr) :
  loop_raises rt lines = Some e ->
  exists i line,
    nth_error lines i = Some line /\ strip line <> [] /\
    json_loads rt (strip line) = OtherError e.
Proof.
  induction lines as [|l rest IH]; cbn [loop_raises]; [discriminate|].
  destruct (line_raises rt l) as [e'|] eqn:R.
  - intros H. injection H as ->. exists 0%nat, l. unfold line_raises in R.
    destruct (strip l) as [|c s] eqn:E; [discriminate|].
    destruct (json_loads rt (c :: s)) eqn:L; try discriminate.
    injection R as ->. split; [reflexivity|]. rewrite ?E.
    split; [discriminate|]. now rewrite ?L.
  - intros H. destruct (IH H) as (i & line & Hn & Hs & Hl).
    exists (S i), line. now repeat split.
Qed.

Lemma loop_raises_app (l1 l2 : list pystr) :
  loop_raises rt (l1 ++ l2) =
  match loop_raises rt l1 with
  | Some e => Some e
  | None => loop_raises rt l2
  end.
Proof.
  induction l1 as [|l l1 IH]; cbn [app loop_raises]; [reflexivity|].
  now destruct (line_raises rt l).
Qed.

Lemma lines_read_app (l1 l2 : list pystr) :
  lines_read rt (l1 ++ l2) =
  match loop_raises rt l1 with
  | Some _ => lines_read rt l1
  | None => l1 ++ lines_read rt l2
  end.
Proof.
  induction l1 as [|l l1 IH]; cbn [app lines_read loop_raises]; [reflexivity|].
  destruct (line_raises rt l); [reflexivity|]. rewrite IH.
  now destruct (loop_raises rt l1).
Qed.

Lemma lines_read_quiet (lines : list pystr) :
  loop_raises rt (lines_read rt lines) = None.
Proof.
  induction lines as [|l rest IH]; cbn [lines_read]; [reflexivity|].
  destruct (line_raises rt l) eqn:R; [reflexivity|].
  cbn [loop_raises]. now rewrite R.
Qed.

Lemma lines_contribute (name : pystr) (lines : list pystr) :
  forall lineno,
    loop_raises rt lines = None ->
    (List.length (records_from rt lines)
     + List.length (errors_from rt name lineno lines))%nat
    = List.length (filter non_blank lines).
Proof.
  induction lines as [|l rest IH]; intros lineno; [reflexivity|].
  cbn [records_from errors_from filter loop_raises].
  destruct (line_raises rt l) eqn:R; [discriminate|]. intros H.
  rewrite !length_app. specialize (IH (lineno + 1) H).
  assert ((List.length (line_records rt l)
           + List.length (line_errors rt name lineno l))%nat
          = if non_blank l then 1%nat else 0%nat) as Hl.
  { unfold line_raises in R. unfold line_records, line_errors, non_blank.
    destruct (strip l); [reflexivity|].
    destruct (json_loads rt _); try discriminate; reflexivity. }
  destruct (non_blank l); cbn [List.length]; lia.
Qed.

Lemma errors_from_length (name : pystr) (lines : list pystr) :
  forall k k',
    List.length (errors_from rt name k lines)
    = List.length (errors_from rt name k' lines).
Proof.
  induction lines as [|l rest IH]; intros k k'; [reflexivity|].
  cbn [errors_from]. rewrite !length_app, (IH (k + 1) (k' + 1)).
  f_equal. unfold line_errors. destruct (strip l); [reflexivity|].
  now destruct (json_loads rt _).
Qed.

(** X5. Nothing comes out of the decoder that no line put there: every
    record of a file is the parse of one of its non-blank lines; and every
    error is the decode error of one of its lines, with that line's 1-based
    number, or the one error of the failed read, or the one error of a line
    on which [json.loads] raised something else than [JSONDecodeError]. *)
Theorem decoder_is_sound (name : pystr) (lines : list pystr)
    (failure : option pystr) :
  (forall obj,
     In obj (fst (read_jsonl_file rt name (Stream lines failure))) ->
     exists i line,
       nth_error lines i = Some line /\ strip line <> [] /\
       json_loads rt (strip line) = Loaded obj) /\
  (forall err,
     In err (snd (read_jsonl_file rt name (Stream lines failure))) ->
     (exists i line e,
        nth_error lines i = Some line /\ strip line <> [] /\
        json_loads rt (strip line) = JSONDecodeError e /\
        err = name ++ lit ":" ++ str_of_int (Z.of_nat i + 1)
                   ++ lit " JSONDecodeError: " ++ e) \/
     (exists e,
        failure = Some e /\
        err = name ++ lit ": Could not read file: " ++ e) \/
     (exists i line e,
        nth_error lines i = Some line /\ strip line <> [] /\
        json_loads rt (strip line) = OtherError e /\
        err = name ++ lit ": Could not read file: " ++ e)).
Proof.
  rewrite read_jsonl_file_stream. cbn [fst snd]. split.
  - intros obj H. destruct (records_from_sound _ obj H)
      as (i & line & Hn & Hs & Hl).
    exists i, line. split; [now apply (lines_read_nth rt)|]. now split.
  - intros err H. apply in_app_or in H. destruct H as [H|H].
    + left. destruct (errors_from_sound name _ err 1 H)
        as (i & line & e & Hn & Hs & Hl & ->).
      exists i, line, e. split; [now apply (lines_read_nth rt)|].
      repeat split; try assumption.
      unfold decode_error. now rewrite Z.add_comm.
    + right. destruct (loop_raises rt lines) as [e|] eqn:R.
      * right. destruct H as [<-|[]].
        destruct (loop_raises_sound lines e R) as (i & line & Hn & Hs & Hl).
        now exists i, line, e.
      * left. destruct failure as [e|]; [|destruct H].
        destruct H as [<-|[]]. now exists e.
Qed.

(** X6. Every non-blank line the loop goes through gives exactly one
    record or one decode error, and the end of the reading by an exception
    one error more: the records and the errors of a file are together as
    many as the non-blank lines gone through, plus one when the reading
    ends on an exception; they are never more than the non-blank lines of
    the file plus one. *)
Theorem decoder_accounts_for_every_line (name : pystr) (lines : list pystr)
    (failure : option pystr) :
  (List.length (fst (read_jsonl_file rt name (Stream lines failure)))
   + List.length (snd (read_jsonl_file rt name (Stream lines failure))))%nat
  = (List.length (filter non_blank (lines_read rt lines))
     + match loop_raises rt lines, failure with
       | None, None => 0
       | _, _ => 1
       end)%nat /\
  (List.length (fst (read_jsonl_file rt name (Stream lines failure)))
   + List.length (snd (read_jsonl_file rt name (Stream lines failure)))
   <= List.length (filter non_blank lines) + 1)%nat.
Proof.
  rewrite read_jsonl_file_stream. cbn [fst snd]. rewrite length_app.
  pose proof (lines_contribute name (lines_read rt lines) 1
                (lines_read_quiet lines)) as H.
  assert (List.length (filter non_blank (lines_read rt lines))
          <= List.length (filter non_blank lines))%nat as Hle.
  { destruct (lines_read_prefix rt lines) as (rest & E).
    rewrite E at 2. rewrite filter_app, length_app. lia. }
  destruct (loop_raises rt lines), failure; cbn [List.length]; lia.
Qed.

(** X7. A blank line gives nothing: with it or without it a file has the
    same records and as many errors (only the line numbers after it move),
    and blank lines at the end change nothing at all. *)
Theorem blank_line_is_skipped (name : pystr) (before after : list pystr)
    (b : pystr) (failure : option pystr) :
  strip b = [] ->
  fst (read_jsonl_file rt name (Stream (before ++ b :: after) failure))
  = fst (read_jsonl_file rt name (Stream (before ++ after) failure)) /\
  List.length
    (snd (read_jsonl_file rt name (Stream (before ++ b :: after) failure)))
  = List.length
      (snd (read_jsonl_file rt name (Stream (before ++ after) failure))) /\
  read_jsonl_file rt name (Stream (before ++ [b]) failure)
  = read_jsonl_file rt name (Stream before failure).
Proof.
  intros Hb.
  assert (line_raises rt b = None) as Rb by (unfold line_raises; now rewrite Hb).
  rewrite !read_jsonl_file_stream. cbn [fst snd].
  rewrite !lines_read_app, !loop_raises_app.
  cbn [lines_read loop_raises]. rewrite Rb.
  destruct (loop_raises rt before) eqn:R.
  - repeat split.
  - rewrite ?(lines_read_all rt before R).
    rewrite !records_from_app, !errors_from_app.
    cbn [records_from errors_from]. unfold line_records, line_errors.
    rewrite Hb. cbn [app]. rewrite !app_nil_r.
    split; [reflexivity|]. split; [|reflexivity].
    rewrite !length_app. f_equal. f_equal. apply errors_from_length.
Qed.

Lemma loop_raises_firstn (lines : list pystr) (i : nat) :
  loop_raises rt lines = None -> loop_raises rt (firstn i lines) = None.
Proof.
  revert i. induction lines as [|l rest IH]; intros [|i] H;
    cbn [firstn loop_raises] in *; try reflexivity.
  destruct (line_raises rt l); [discriminate|]. now apply IH.
Qed.

(** A line is gone through when no line before it sends an exception out
    of the loop. *)
Lemma reached_nth (lines : list pystr) (i : nat) (line : pystr) :
  nth_error lines i = Some line ->
  loop_raises rt (firstn i lines) = None ->
  line_raises rt line = None ->
  nth_error (lines_read rt lines) i = Some line.
Proof.
  revert i. induction lines as [|l rest IH]; intros [|i] Hn Hb Hl;
    cbn [nth_error firstn loop_raises lines_read] in *; try discriminate.
  - injection Hn as ->. now rewrite Hl.
  - destruct (line_raises rt l); [discriminate|]. cbn [nth_error].
    now apply IH.
Qed.

Lemma decode_error_line_stays (line e : pystr) :
  json_loads rt (strip line) = JSONDecodeError e ->
  line_raises rt line = None.
Proof.
  intros H. unfold line_raises. destruct (strip line); [reflexivity|].
  now rewrite H.
Qed.

Lemma loaded_line_stays (line : pystr) (obj : json) :
  json_loads rt (strip line) = Loaded obj ->
  line_raises rt line = None.
Proof.
  intros H. unfold line_raises. destruct (strip line); [reflexivity|].
  now rewrite H.
Qed.

(** The decode errors are in the order of their lines. *)
Lemma errors_from_order (name : pystr) (lines : list pystr) (i j : nat)
    (li lj ei ej : pystr) (lineno : Z) :
  (i < j)%nat ->
  nth_error lines i = Some li -> strip li <> [] ->
  json_loads rt (strip li) = JSONDecodeError ei ->
  nth_error lines j = Some lj -> strip lj <> [] ->
  json_loads rt (strip lj) = JSONDecodeError ej ->
  exists a b c,
    errors_from rt name lineno lines =
    a ++ decode_error name (lineno + Z.of_nat i) ei
      :: b ++ decode_error name (lineno + Z.of_nat j) ej :: c.
Proof.
  intros Hij Hi Hsi Hli Hj Hsj Hlj.
  destruct (nth_error_split _ _ Hj) as (l1 & l2 & -> & Hlen).
  rewrite nth_error_app1 in Hi by lia.
  rewrite errors_from_app. cbn [errors_from]. rewrite Hlen.
  pose proof (errors_from_nth rt name l1 i li ei lineno Hi Hsi Hli) as Hin.
  apply in_split in Hin. destruct Hin as (a & b & ->).
  exists a, b, (errors_from rt name (lineno + Z.of_nat j + 1) l2).
  unfold line_errors. destruct (strip lj); [contradiction|]. rewrite Hlj.
  rewrite <- !app_assoc. reflexivity.
Qed.

(** A line on which [json.loads] raises another exception ends the
    reading: the records and decode errors of the lines before it are kept,
    one error without a line number follows, and nothing of the lines after
    it is left. *)
Lemma other_exception_ends_the_file (name : pystr)
    (before after : list pystr) (line e : pystr) (failure : option pystr) :
  loop_raises rt before = None ->
  strip line <> [] ->
  json_loads rt (strip line) = OtherError e ->
  read_jsonl_file rt name (Stream (before ++ line :: after) failure) =
  (records_from rt before,
   errors_from rt name 1 before
     ++ [name ++ lit ": Could not read file: " ++ e]).
Proof.
  intros Hb Hs Hl.
  assert (line_raises rt line = Some e) as Hr.
  { unfold line_raises. destruct (strip line); [contradiction|].
    now rewrite Hl. }
  rewrite read_jsonl_file_stream, lines_read_app, loop_raises_app, Hb.
  cbn [lines_read loop_raises]. rewrite Hr, app_nil_r. reflexivity.
Qed.

(** X9. A line whose parse raises [JSONDecodeError] does not stop the
    loop.  As long as no line before it made [json.loads] raise another
    exception, such a line leaves its error, with the file name, the
    1-based number of the physical line and the parser's message, and a
    line that parses leaves its record, whatever the lines before them
    were; the errors of a file stand in the order of their lines; and the
    errors of a completed run are those of its files, in file order. *)
Theorem decode_errors_are_numbered (name : pystr) (lines : list pystr)
    (failure : option pystr) :
  (forall i line e,
     nth_error lines i = Some line ->
     loop_raises rt (firstn i lines) = None ->
     strip line <> [] ->
     json_loads rt (strip line) = JSONDecodeError e ->
     In (name ++ lit ":" ++ str_of_int (Z.of_nat i + 1)
              ++ lit " JSONDecodeError: " ++ e)
        (snd (read_jsonl_file rt name (Stream lines failure)))) /\
  (forall i line obj,
     nth_error lines i = Some line ->
     loop_raises rt (firstn i lines) = None ->
     strip line <> [] ->
     json_loads rt (strip line) = Loaded obj ->
     In obj (fst (read_jsonl_file rt name (Stream lines failure)))) /\
  (forall i j li lj ei ej,
     (i < j)%nat ->
     nth_error lines i = Some li -> strip li <> [] ->
     json_loads rt (strip li) = JSONDecodeError ei ->
     nth_error lines j = Some lj -> strip lj <> [] ->
     json_loads rt (strip lj) = JSONDecodeError ej ->
     loop_raises rt (firstn j lines) = None ->
     exists a b c,
       snd (read_jsonl_file rt name (Stream lines failure)) =
       a ++ (name ++ lit ":" ++ str_of_int (Z.of_nat i + 1)
                  ++ lit " JSONDecodeError: " ++ ei)
         :: b ++ (name ++ lit ":" ++ str_of_int (Z.of_nat j + 1)
                       ++ lit " JSONDecodeError: " ++ ej) :: c) /\
  (forall w st path report out code,
     main rt w = Finished st path report out code ->
     all_errors st =
       flat_map
         (fun lf =>
            snd (read_jsonl_file rt lf
                   (open_read w (resolve w (nth 1 (argv w) [])) lf)))
         (log_files st)).
Proof.
  rewrite read_jsonl_file_stream. cbn [fst snd].
  split; [|split; [|split]].
  - intros i line e Hn Hb Hs Hl. apply in_or_app. left.
    rewrite Z.add_comm.
    apply (errors_from_nth rt name _ i line e 1); try assumption.
    apply reached_nth; try assumption.
    now apply decode_error_line_stays with e.
  - intros i line obj Hn Hb Hs Hl.
    apply (records_from_nth rt _ i line obj); try assumption.
    apply reached_nth; try assumption.
    now apply loaded_line_stays with obj.
  - intros i j li lj ei ej Hij Hi Hsi Hli Hj Hsj Hlj Hb.
    assert (loop_raises rt (firstn i lines) = None) as Hbi.
    { replace i with (Nat.min i j) by lia. rewrite <- firstn_firstn.
      now apply loop_raises_firstn. }
    pose proof (reached_nth lines i li Hi Hbi
                  (decode_error_line_stays li ei Hli)) as Ri.
    pose proof (reached_nth lines j lj Hj Hb
                  (decode_error_line_stays lj ej Hlj)) as Rj.
    destruct (errors_from_order name _ i j li lj ei ej 1 Hij Ri Hsi Hli
                Rj Hsj Hlj) as (a & b & c & E).
    rewrite E. rewrite !(Z.add_comm 1). unfold decode_error.
    exists a, b,
      (c ++ match loop_raises rt lines with
            | Some e => [read_error name e]
            | None =>
                match failure with
                | Some e => [read_error name e]
                | None => []
                end
            end).
    rewrite <- !app_assoc. cbn [app]. rewrite <- !app_assoc. reflexivity.
  - intros w st path report out code H. apply main_finished in H.
    destruct H as (_ & Ha & _). apply analyse_spec in Ha.
    destruct Ha as (Hlf & _ & He & _). rewrite He, Hlf. reflexivity.
Qed.

End Decoder.

(** ** More on the classifier and the aggregator *)

Section Loops.
Context (rt : runtime).

Lemma in_reserved (v : json) :
  in_strs v RESERVED = true <->
  v = JStr (lit "run_start") \/ v = JStr (lit "run_summary").
Proof.
  destruct v; cbn [in_strs];
    try (split; [discriminate | intros [H|H]; discriminate]).
  rewrite str_in_In. cbn [RESERVED In]. split.
  - intros [<- | [<- | []]]; [now left | now right].
  - intros [H|H]; injection H as ->; [now left | right; now left].
Qed.

Lemma worst_agrees_unique (w w' : json) (b c : Z) :
  worst_agrees w b c -> worst_agrees w' b c -> w = w'.
Proof.
  intros [(-> & ? & ?) | [(-> & ? & ?) | (-> & ?)]]
         [(-> & ? & ?) | [(-> & ? & ?) | (-> & ?)]];
    try reflexivity; lia.
Qed.

Lemma tally_perm (n : pystr) (l l' : list json) :
  Permutation l l' -> tally n l = tally n l'.
Proof.
  intros H. unfold tally. f_equal.
  apply Permutation_length. now apply filter_perm.
Qed.

Lemma deviates_tally (l : list json) :
  Forall well_classified l ->
  Z.of_nat (List.length (filter deviates l)) = tally WARN l + tally FAIL l.
Proof.
  induction 1 as [|e l He Hl IH]; [reflexivity|].
  rewrite !tally_cons. cbn [filter].
  destruct (well_classified_status e He) as (n & _ & Hs & Hn).
  unfold deviates at 1, has_status. rewrite Hs.
  destruct Hn as [-> | [-> | ->]];
    repeat match goal with
    | |- context [str_eqb ?x ?y] =>
        let v := eval vm_compute in (str_eqb x y) in
        change (str_eqb x y) with v
    | |- context [in_strs (JStr ?x) ?y] =>
        let v := eval vm_compute in (in_strs (JStr x) y) in
        change (in_strs (JStr x) y) with v
    end; cbv iota; cbn [List.length]; lia.
Qed.

(** What the variables of a completed run satisfy, in one place. *)
Lemma worst_status_agrees_aux
    (w : world) (st : locals) (path report : pystr) (out : list pystr)
    (code : Z) :
  main rt w = Finished st path report out code ->
  counts st = [(OK, tally OK (check_entries st));
               (WARN, tally WARN (check_entries st));
               (FAIL, tally FAIL (check_entries st))] /\
  findings st = filter deviates (check_entries st) /\
  Forall well_classified (check_entries st) /\
  worst_agrees (worst st)
    (tally WARN (check_entries st)) (tally FAIL (check_entries st)).
Proof.
  intros H. apply main_finished in H.
  destruct H as (_ & Ha & _). apply analyse_spec in Ha.
  destruct Ha as (_ & _ & _ & _ & HF & Hc & Hw & Hfi & _).
  assert (Forall well_classified (check_entries st)) as Hwc
    by (eapply classified_all_well; exact HF).
  destruct (running_worst_spec (check_entries st) (JStr OK) 0 0 Hwc)
    as [Hinv _]; [lia | lia | left; now repeat split |].
  rewrite <- Hw in Hinv. now repeat split.
Qed.

(** X8. The classifier drops a record exactly when its [check] field is the
    string "run_start" or the string "run_summary": a record without
    [check], or with a [check] that is not a string, is kept. *)
Theorem classify_drops_reserved_only (d : dict json) (acc : list json) :
  classify rt [JObj d] acc = Ret acc <->
  dict_get (lit "check") d = Some (JStr (lit "run_start")) \/
  dict_get (lit "check") d = Some (JStr (lit "run_summary")).
Proof.
  cbn [classify py_get bind].
  destruct (in_strs _ RESERVED) eqn:E.
  - split; [intros _|reflexivity]. apply in_reserved in E.
    destruct (dict_get (lit "check") d) as [v|].
    + destruct E as [-> | ->]; [now left | now right].
    + destruct E as [E|E]; discriminate.
  - cbn [py_setitem bind classify]. split.
    + intros H. injection H as H.
      apply (f_equal (@List.length json)) in H.
      rewrite length_app in H. cbn in H. lia.
    + intros H.
      assert (in_strs
                match dict_get (lit "check") d with
                | Some v => v
                | None => JStr []
                end RESERVED = true) as C
        by (apply in_reserved; destruct H as [-> | ->]; [now left | now right]).
      congruence.
Qed.

(** X10. The summary does not depend on the order of the records: over
    classified records taken in another order the aggregator ends with the
    same counters and the same worst status, and with the same findings in
    that other order. *)
Theorem aggregate_order_independent (l l' : list json) :
  Forall well_classified l ->
  Permutation l l' ->
  exists counts worst findings findings',
    aggregate l [(OK, 0); (WARN, 0); (FAIL, 0)] (JStr OK) []
      = Ret (counts, worst, findings) /\
    aggregate l' [(OK, 0); (WARN, 0); (FAIL, 0)] (JStr OK) []
      = Ret (counts, worst, findings') /\
    Permutation findings findings'.
Proof.
  intros Hw Hp.
  assert (Forall well_classified l') as Hw'
    by (eapply Permutation_Forall; eassumption).
  rewrite (aggregate_spec l 0 0 0 OK [] Hw),
    (aggregate_spec l' 0 0 0 OK [] Hw').
  rewrite <- !(tally_perm _ l l' Hp). cbn [app Z.add].
  destruct (running_worst_spec l (JStr OK) 0 0 Hw) as [H1 _];
    [lia | lia | left; now repeat split |].
  destruct (running_worst_spec l' (JStr OK) 0 0 Hw') as [H2 _];
    [lia | lia | left; now repeat split |].
  rewrite <- !(tally_perm _ l l' Hp) in H2.
  rewrite <- (worst_agrees_unique _ _ _ _ H1 H2).
  do 4 eexists. split; [reflexivity|]. split; [reflexivity|].
  now apply filter_perm.
Qed.

(** X11. When a run completes there are as many findings as the WARN and
    FAIL counters say together, each finding carries WARN or FAIL, and the
    list of findings is empty exactly when the worst status is OK. *)
Theorem findings_match_counters
    (w : world) (st : locals) (path report : pystr) (out : list pystr)
    (code : Z) :
  main rt w = Finished st path report out code ->
  exists n_ok n_warn n_fail,
    counts st = [(OK, n_ok); (WARN, n_warn); (FAIL, n_fail)] /\
    Z.of_nat (List.length (findings st)) = n_warn + n_fail /\
    Forall (fun e => status_of e = JStr WARN \/ status_of e = JStr FAIL)
      (findings st) /\
    (findings st = [] <-> worst st = JStr OK).
Proof.
  intros H.
  destruct (worst_status_agrees_aux w st path report out code H)
    as (Hc & Hfi & Hwc & Hinv).
  exists (tally OK (check_entries st)), (tally WARN (check_entries st)),
    (tally FAIL (check_entries st)).
  pose proof (deviates_tally _ Hwc) as Hlen. rewrite <- Hfi in Hlen.
  pose proof (tally_nonneg WARN (check_entries st)).
  pose proof (tally_nonneg FAIL (check_entries st)).
  destruct status_neq as (N1 & N2 & N3).
  split; [assumption|]. split; [assumption|]. split.
  - rewrite Hfi. apply Forall_forall. intros e He.
    apply filter_In in He. destruct He as [He Hd].
    rewrite Forall_forall in Hwc.
    destruct (well_classified_status e (Hwc e He)) as (n & _ & Hs & Hn).
    unfold deviates in Hd. rewrite Hs in *.
    destruct Hn as [-> | [-> | ->]]; [discriminate | now left | now right].
  - split; intros E.
    + rewrite E in Hlen. cbn [List.length Z.of_nat] in Hlen.
      destruct Hinv as [(Ew & _) | [(_ & ? & _) | (_ & ?)]];
        [exact Ew | lia | lia].
    + destruct (findings st); [reflexivity|]. cbn [List.length] in Hlen.
      destruct Hinv as [(_ & ? & ?) | [(Ew & _) | (Ew & _)]];
        [lia | congruence | congruence].
Qed.

End Loops.

(** ** More on the run as a whole *)

Section Run.
Context (rt : runtime).

Lemma first_non_dict (l : list json) :
  Forall (fun e => is_dict e = true) l \/
  exists l1 v l2,
    l = l1 ++ v :: l2 /\ Forall (fun e => is_dict e = true) l1 /\
    is_dict v = false.
Proof.
  induction l as [|e l IH]; [left; constructor|].
  destruct (is_dict e) eqn:E.
  - destruct IH as [IH | (l1 & v & l2 & -> & H1 & Hv)].
    + left. now constructor.
    + right. exists (e :: l1), v, l2. repeat split; [now constructor|exact Hv].
  - right. exists [], e, l. repeat split; [constructor | exact E].
Qed.

Lemma skipn_length_app {A} (pre suf : list A) :
  skipn (List.length pre) (pre ++ suf) = suf.
Proof. induction pre; [reflexivity | assumption]. Qed.

Lemma endswith_spec (s suf : pystr) :
  endswith s suf = true <-> exists pre, s = pre ++ suf.
Proof.
  unfold endswith. rewrite str_eqb_eq. split.
  - intros H. exists (firstn (List.length s - List.length suf) s).
    rewrite <- (firstn_skipn (List.length s - List.length suf) s) at 1.
    f_equal. exact H.
  - intros (pre & ->). rewrite length_app.
    replace (List.length pre + List.length suf - List.length suf)%nat
      with (List.length pre) by lia.
    apply skipn_length_app.
Qed.

Lemma glob_sorted_In (w : world) (logdir lf : pystr) :
  In lf (sorted (glob_jsonl w logdir)) <->
  In lf (listdir w logdir) /\ endswith lf (lit ".jsonl") = true.
Proof.
  unfold glob_jsonl. split; intros H.
  - apply (filter_In (fun name => endswith name (lit ".jsonl"))).
    eapply Permutation_in; [symmetry; apply sorted_perm | exact H].
  - apply (filter_In (fun name => endswith name (lit ".jsonl"))) in H.
    eapply Permutation_in; [apply sorted_perm | exact H].
Qed.

Lemma analyse_ext_on (w1 w2 : world) (logdir : pystr) (fs : list pystr) :
  (forall n, In n fs -> open_read w1 logdir n = open_read w2 logdir n) ->
  analyse rt w1 logdir fs = analyse rt w2 logdir fs.
Proof.
  intros H. unfold analyse. rewrite !read_all_spec. cbn [app].
  assert (flat_map (file_records rt w1 logdir) fs
          = flat_map (file_records rt w2 logdir) fs) as ->.
  { induction fs as [|f fs IH]; [reflexivity|]. cbn [flat_map].
    unfold file_records at 1 3. rewrite (H f) by now left.
    f_equal. apply IH. intros n Hn. apply H. now right. }
  assert (flat_map (file_errors rt w1 logdir) fs
          = flat_map (file_errors rt w2 logdir) fs) as ->.
  { induction fs as [|f fs IH]; [reflexivity|]. cbn [flat_map].
    unfold file_errors at 1 3. rewrite (H f) by now left.
    f_equal. apply IH. intros n Hn. apply H. now right. }
  reflexivity.
Qed.

Lemma occurs_in_trans (a b c : pystr) :
  occurs_in a b -> occurs_in b c -> occurs_in a c.
Proof.
  intros (p1 & q1 & ->) (p2 & q2 & ->). exists (p2 ++ p1), (q1 ++ q2).
  now rewrite <- !app_assoc.
Qed.

(** A text handed to [rep.write] shows in the report. *)
Lemma chunk_occurs (chunks : list (res pystr)) (t r : pystr) :
  write_chunks chunks [] = Ret r ->
  In (Ret t) chunks ->
  occurs_in t r.
Proof.
  intros H Hin. apply in_split in Hin. destruct Hin as (l1 & l2 & ->).
  change (l1 ++ Ret t :: l2) with (l1 ++ map Ret [t] ++ l2) in H.
  apply write_chunks_occurs in H. cbn in H. now rewrite app_nil_r in H.
Qed.

Lemma app_middle {A : Type} (a0 a b c f t d : list A) :
  a0 ++ a ++ b ++ c ++ (f ++ t) ++ d = (a0 ++ a ++ b ++ c) ++ f ++ t ++ d.
Proof. now rewrite <- !app_assoc. Qed.

(** The chunks of the findings stand together among the chunks. *)
Lemma report_chunks_findings (now : pystr) (st : locals) :
  findings st <> [] ->
  exists P Q,
    report_chunks rt now st =
    P ++ flat_map (finding_chunks rt) (findings st) ++ Q.
Proof.
  intros Hf. unfold report_chunks, body_chunks.
  destruct (findings st) as [|f fs] eqn:E; [contradiction|].
  do 2 eexists. apply app_middle.
Qed.

Lemma finding_chunks_dict (d : dict json) :
  exists l1 l2,
    finding_chunks rt (JObj d) = map Ret [l1; l2] /\
    write_finding rt (JObj d) = Ret (l1 ++ l2).
Proof.
  unfold finding_chunks, write_finding. cbn [py_get bind map].
  eexists _, _. split; [reflexivity|]. now rewrite <- !app_assoc.
Qed.

Lemma analyse_findings_dicts (w : world) (logdir : pystr)
    (files : list pystr) (st : locals) :
  analyse rt w logdir files = Ret st ->
  Forall (fun e => is_dict e = true) (findings st).
Proof.
  intros Ha. apply analyse_spec in Ha.
  destruct Ha as (_ & _ & _ & _ & HF & _ & _ & Hfi & _).
  rewrite Hfi. apply Forall_filter.
  clear -HF. induction HF as [|? ? ? ? (d & -> & ->)]; now constructor.
Qed.

Lemma findings_are_dicts
    (w : world) (st : locals) (path report : pystr) (out : list pystr)
    (code : Z) :
  main rt w = Finished st path report out code ->
  Forall (fun e => is_dict e = true) (findings st).
Proof.
  intros H. apply main_finished in H. destruct H as (_ & Ha & _).
  now apply analyse_findings_dicts in Ha.
Qed.







(** X13. Reading, classifying and counting (lines 57 to 94) raise in one
    way only: a decoded record that is not an object meets the classifier.
    The exception is the [AttributeError] of the first such record; the loops
    never raise [KeyError] or [TypeError]. *)
Theorem analysis_raises_only_on_non_object
    (w : world) (logdir : pystr) (files : list pystr) (e : exn) :
  analyse rt w logdir files = Raise e ->
  exists l1 v l2,
    flat_map (file_records rt w logdir) files = l1 ++ v :: l2 /\
    Forall (fun x => is_dict x = true) l1 /\
    is_dict v = false /\
    e = AttributeError v (lit "get").
Proof.
  intros H.
  destruct (first_non_dict (flat_map (file_records rt w logdir) files))
    as [Hd | (l1 & v & l2 & E & Hd & Hv)].
  - destruct (analyse_dicts rt w logdir files Hd) as (st & Ha). congruence.
  - rewrite (analyse_non_object rt w logdir files l1 l2 v E Hd Hv) in H.
    injection H as <-. now exists l1, v, l2.
Qed.

(** X14. The report of a completed run shows the timestamp on the
    "Genererad" line, one bullet line for every file read and one bullet
    line for every error kept; without an error it says so instead. *)
Theorem report_lists_files_and_errors
    (w : world) (st : locals) (path report : pystr) (out : list pystr)
    (code : Z) :
  main rt w = Finished st path report out code ->
  occurs_in (lit "**Genererad:** " ++ now w ++ nl) report /\
  (forall lf,
     In lf (log_files st) -> occurs_in (lit "- " ++ lf ++ nl) report) /\
  (forall err,
     In err (all_errors st) -> occurs_in (lit "- " ++ err ++ nl) report) /\
  (all_errors st = [] ->
     occurs_in (lit "Inga inl" ++ [228%N] ++ lit "sningsfel." ++ nl) report).
Proof.
  intros H. apply main_finished in H. destruct H as (_ & _ & Hr & _).
  assert (forall t, In (Ret t) (report_chunks rt (now w) st) ->
                    occurs_in t report) as Hin
    by (intros t; now apply chunk_occurs).
  clear Hr. unfold report_chunks, body_chunks in Hin.
  split; [|split; [|split]].
  - apply occurs_in_trans with (lit "**Genererad:** " ++ now w ++ nl ++ nl).
    + exists [], nl. cbn [app]. now rewrite <- !app_assoc.
    + apply Hin. apply in_or_app. left. right. left. reflexivity.
  - intros lf Hl. apply Hin. rewrite !in_app_iff. right. right. left.
    exact (in_map (fun lf => Ret (lit "- " ++ lf ++ nl)) _ _ Hl).
  - intros err He. apply Hin. rewrite !in_app_iff. do 6 right.
    destruct (all_errors st) as [|x l] eqn:E; [destruct He|].
    exact (in_map (fun err => Ret (lit "- " ++ err ++ nl)) _ _ He).
  - intros E. apply Hin. rewrite !in_app_iff. do 6 right.
    rewrite E. left. reflexivity.
Qed.

(** X15. The report of a completed run shows the two lines of every
    finding, and without a finding it says so instead. *)
Theorem report_shows_every_finding
    (w : world) (st : locals) (path report : pystr) (out : list pystr)
    (code : Z) :
  main rt w = Finished st path report out code ->
  (forall e,
     In e (findings st) ->
     exists t, write_finding rt e = Ret t /\ occurs_in t report) /\
  (findings st = [] ->
     occurs_in (lit "Inga avvikelser identifierades." ++ nl ++ nl) report).
Proof.
  intros H. pose proof (findings_are_dicts w st path report out code H) as Hd.
  apply main_finished in H. destruct H as (_ & _ & Hr & _). split.
  - intros e He.
    assert (findings st <> []) as Hne by (intros C; now rewrite C in He).
    destruct (report_chunks_findings (now w) st Hne) as (P & Q & Hc).
    rewrite Hc in Hr.
    rewrite Forall_forall in Hd. specialize (Hd e He).
    destruct e as [| | | | | |d]; try discriminate.
    destruct (finding_chunks_dict d) as (l1 & l2 & Hfc & Hwf).
    apply in_split in He. destruct He as (pre & post & E).
    rewrite E, flat_map_app in Hr. cbn [flat_map] in Hr.
    rewrite Hfc in Hr. rewrite <- !app_assoc in Hr.
    rewrite (app_assoc P) in Hr.
    apply write_chunks_occurs in Hr. cbn [List.concat] in Hr.
    rewrite app_nil_r in Hr. now exists (l1 ++ l2).
  - intros E. apply (chunk_occurs _ _ _ Hr).
    unfold report_chunks, body_chunks. rewrite !in_app_iff.
    do 4 right. left. rewrite E. left. reflexivity.
Qed.

(** X16. Only the [*.jsonl] files of the directory count: two machines that
    differ in the other names of the directory, in what any other file
    holds, or in the order of the listing, give the same run and the same
    report. *)
Theorem other_files_are_ignored (w1 w2 : world) :
  same_jsonl_files w1 w2 -> main rt w1 = main rt w2.
Proof.
  intros (Hargv & Hcalls & Hls & Hop & Hnow).
  destruct Hcalls as (Hres & Hresr & Hex & Hexr & Hdir & Hdirr & Hglob
                      & Hmk & Hopw & Hcl & Hpr).
  unfold main, print_and_exit, not_a_directory.
  rewrite <- Hargv, <- !Hres, <- !Hresr, <- Hex, <- Hexr, <- Hdir,
    <- Hdirr, <- Hglob, <- !Hpr.
  destruct (negb (Nat.eqb (List.length (argv w1)) 3)); [reflexivity|].
  destruct (resolve_raises w1 (nth 1 (argv w1) [])); [reflexivity|].
  destruct (resolve_raises w1 (nth 2 (argv w1) [])); [reflexivity|].
  destruct (exists_raises w1 _); [reflexivity|].
  destruct (negb (path_exists w1 _)); [reflexivity|].
  destruct (is_dir_raises w1 _); [reflexivity|].
  destruct (negb (path_is_dir w1 _)); [reflexivity|].
  destruct (glob_raises w1 _); [reflexivity|].
  rewrite <- (sorted_perm_invariant _ _ (Hls _)).
  assert (forall n,
            In n (sorted (glob_jsonl w1 (resolve w1 (nth 1 (argv w1) [])))) ->
            open_read w1 (resolve w1 (nth 1 (argv w1) [])) n
            = open_read w2 (resolve w1 (nth 1 (argv w1) [])) n) as Hread.
  { intros n Hn. apply Hop.
    eapply Permutation_in; [symmetry; apply sorted_perm | exact Hn]. }
  rewrite <- (analyse_ext_on w1 w2 _ _ Hread).
  destruct (sorted (glob_jsonl w1 _)); [reflexivity|].
  destruct (analyse rt w1 _ _); [|reflexivity].
  unfold report_and_exit.
  now rewrite <- Hmk, <- Hopw, <- Hcl, <- Hpr, <- Hnow.
Qed.

(** X17. The files read by a completed run are the names of the directory
    that end in ".jsonl", letter case included, and no other. *)
Theorem log_files_are_the_jsonl_names
    (w : world) (st : locals) (path report : pystr) (out : list pystr)
    (code : Z) (lf : pystr) :
  main rt w = Finished st path report out code ->
  (In lf (log_files st) <->
   In lf (listdir w (resolve w (nth 1 (argv w) []))) /\
   exists stem, lf = stem ++ lit ".jsonl").
Proof.
  intros H. apply main_finished in H. destruct H as (_ & Ha & _).
  apply analyse_spec in Ha. destruct Ha as (-> & _).
  rewrite glob_sorted_In, endswith_spec. reflexivity.
Qed.

End Run.

(** ** The further properties on the sample inputs *)

Lemma normalize_status_ignores_padding_witness :
  all_space [32; 9]%N /\ all_space [13; 10]%N /\
  normalize_status Sample.rt (JStr ([32; 9]%N ++ lit "Ok" ++ [13; 10]%N))
  = normalize_status Sample.rt (JStr (lit "Ok")).
Proof.
  assert (all_space [32; 9]%N) as H1 by (repeat constructor).
  assert (all_space [13; 10]%N) as H2 by (repeat constructor).
  exact (conj H1 (conj H2
           (normalize_status_ignores_padding Sample.rt _ (lit "Ok") _ H1 H2))).
Defined.

Lemma normalize_status_ignores_case_witness :
  is_ascii (lit "warn") /\
  normalize_status Sample.rt (JStr (upper Sample.rt (lit "warn")))
  = normalize_status Sample.rt (JStr (lit "warn")).
Proof.
  assert (is_ascii (lit "warn")) as H
    by (repeat (constructor; [reflexivity|]); constructor).
  exact (conj H (normalize_status_ignores_case Sample.rt (lit "warn") H)).
Defined.

Lemma decoder_is_sound_witness :
  In Sample.rec_x
    (fst (read_jsonl_file Sample.rt Sample.a_jsonl
            (Stream Sample.a_lines None))) /\
  exists i line,
    nth_error Sample.a_lines i = Some line /\ strip line <> [] /\
    json_loads Sample.rt (strip line) = Loaded Sample.rec_x.
Proof.
  assert (In Sample.rec_x
            (fst (read_jsonl_file Sample.rt Sample.a_jsonl
                    (Stream Sample.a_lines None)))) as H
    by (vm_compute; right; left; reflexivity).
  exact (conj H
           (proj1 (decoder_is_sound Sample.rt Sample.a_jsonl Sample.a_lines
                     None) Sample.rec_x H)).
Defined.

Lemma decode_errors_are_numbered_witness :
  In Sample.error_line_3
    (snd (read_jsonl_file Sample.rt Sample.a_jsonl
            (Stream Sample.a_lines None))) /\
  In Sample.rec_y
    (fst (read_jsonl_file Sample.rt Sample.a_jsonl
            (Stream Sample.a_lines None))) /\
  (exists a b c,
     snd (read_jsonl_file Sample.rt Sample.a_jsonl
            (Stream [Sample.line_bad ++ nl; nl; Sample.line_bad ++ nl]
               (Some Sample.io_error))) =
     a ++ (Sample.a_jsonl ++ lit ":" ++ str_of_int (Z.of_nat 0 + 1)
             ++ lit " JSONDecodeError: " ++ Sample.expecting_value)
       :: b ++ (Sample.a_jsonl ++ lit ":" ++ str_of_int (Z.of_nat 2 + 1)
                  ++ lit " JSONDecodeError: " ++ Sample.expecting_value)
       :: c) /\
  all_errors Sample.example_locals =
    flat_map
      (fun lf =>
         snd (read_jsonl_file Sample.rt lf
                (open_read Sample.example_world
                   (resolve Sample.example_world
                      (nth 1 (argv Sample.example_world) [])) lf)))
      (log_files Sample.example_locals).
Proof.
  assert (strip (Sample.line_bad ++ nl) <> []) as Hs by discriminate.
  assert (json_loads Sample.rt (strip (Sample.line_bad ++ nl))
          = JSONDecodeError Sample.expecting_value) as Hl by reflexivity.
  assert (main Sample.rt Sample.example_world =
          Finished Sample.example_locals Sample.out_md Sample.example_report
            Sample.written_to 1) as H by (vm_compute; reflexivity).
  split; [|split; [|split]].
  - exact (proj1 (decode_errors_are_numbered Sample.rt Sample.a_jsonl
                    Sample.a_lines None)
             2%nat (Sample.line_bad ++ nl) Sample.expecting_value
             eq_refl eq_refl Hs Hl).
  - assert (strip (Sample.line_y ++ nl) <> []) as Hy by discriminate.
    exact (proj1 (proj2 (decode_errors_are_numbered Sample.rt Sample.a_jsonl
                           Sample.a_lines None))
             3%nat (Sample.line_y ++ nl) Sample.rec_y
             eq_refl eq_refl Hy eq_refl).
  - assert (0 < 2)%nat as H02 by lia.
    exact (proj1 (proj2 (proj2
             (decode_errors_are_numbered Sample.rt Sample.a_jsonl
                [Sample.line_bad ++ nl; nl; Sample.line_bad ++ nl]
                (Some Sample.io_error))))
             0%nat 2%nat _ _ _ _ H02 eq_refl Hs Hl eq_refl Hs Hl eq_refl).
  - exact (proj2 (proj2 (proj2
             (decode_errors_are_numbered Sample.rt Sample.a_jsonl
                Sample.a_lines None)))
             Sample.example_world _ _ _ _ _ H).
Defined.

Lemma blank_line_is_skipped_witness :
  strip nl = [] /\
  fst (read_jsonl_file Sample.rt Sample.a_jsonl
         (Stream ([Sample.line_x ++ nl] ++ nl :: [Sample.line_bad ++ nl])
            None))
  = fst (read_jsonl_file Sample.rt Sample.a_jsonl
           (Stream ([Sample.line_x ++ nl] ++ [Sample.line_bad ++ nl]) None)).
Proof.
  split; [reflexivity|].
  exact (proj1 (blank_line_is_skipped Sample.rt Sample.a_jsonl
                  [Sample.line_x ++ nl] [Sample.line_bad ++ nl] nl None
                  eq_refl)).
Defined.

Lemma classify_drops_reserved_only_witness :
  dict_get (lit "check") [(lit "check", JStr (lit "run_start"))]
    = Some (JStr (lit "run_start")) /\
  classify Sample.rt [Sample.rec_start] [Sample.rec_y'] = Ret [Sample.rec_y'].
Proof.
  split; [reflexivity|].
  exact (proj2 (classify_drops_reserved_only Sample.rt
                  [(lit "check", JStr (lit "run_start"))] [Sample.rec_y'])
           (or_introl eq_refl)).
Defined.

Lemma sample_well_classified :
  Forall well_classified [Sample.rec_x'; Sample.rec_y'].
Proof.
  repeat constructor.
  - exists FAIL. split; [reflexivity | right; right; left; reflexivity].
  - exists OK. split; [reflexivity | left; reflexivity].
Defined.

Lemma aggregate_order_independent_witness :
  Forall well_classified [Sample.rec_x'; Sample.rec_y'] /\
  Permutation [Sample.rec_x'; Sample.rec_y'] [Sample.rec_y'; Sample.rec_x'] /\
  exists counts worst findings findings',
    aggregate [Sample.rec_x'; Sample.rec_y']
      [(OK, 0); (WARN, 0); (FAIL, 0)] (JStr OK) []
      = Ret (counts, worst, findings) /\
    aggregate [Sample.rec_y'; Sample.rec_x']
      [(OK, 0); (WARN, 0); (FAIL, 0)] (JStr OK) []
      = Ret (counts, worst, findings') /\
    Permutation findings findings'.
Proof.
  exact (conj sample_well_classified
           (conj (perm_swap _ _ _)
              (aggregate_order_independent _ _ sample_well_classified
                 (perm_swap _ _ _)))).
Defined.

Lemma findings_match_counters_witness :
  main Sample.rt Sample.example_world =
    Finished Sample.example_locals Sample.out_md Sample.example_report
      Sample.written_to 1 /\
  exists n_ok n_warn n_fail,
    counts Sample.example_locals
      = [(OK, n_ok); (WARN, n_warn); (FAIL, n_fail)] /\
    Z.of_nat (List.length (findings Sample.example_locals))
      = n_warn + n_fail.
Proof.
  assert (main Sample.rt Sample.example_world =
          Finished Sample.example_locals Sample.out_md Sample.example_report
            Sample.written_to 1) as H by (vm_compute; reflexivity).
  split; [exact H|].
  destruct (findings_match_counters Sample.rt _ _ _ _ _ _ H)
    as (a & b & c & Hc & Hl & _).
  exists a, b, c. exact (conj Hc Hl).
Defined.


Lemma analysis_raises_only_on_non_object_witness :
  analyse Sample.rt Sample.world_42 Sample.logdir [Sample.a_jsonl]
    = Raise (AttributeError (JInt 42) (lit "get")) /\
  exists l1 v l2,
    flat_map (file_records Sample.rt Sample.world_42 Sample.logdir)
      [Sample.a_jsonl] = l1 ++ v :: l2 /\
    Forall (fun x => is_dict x = true) l1 /\
    is_dict v = false /\
    AttributeError (JInt 42) (lit "get") = AttributeError v (lit "get").
Proof.
  assert (analyse Sample.rt Sample.world_42 Sample.logdir [Sample.a_jsonl]
          = Raise (AttributeError (JInt 42) (lit "get"))) as H
    by (vm_compute; reflexivity).
  exact (conj H
           (analysis_raises_only_on_non_object Sample.rt _ _ _ _ H)).
Defined.

Lemma report_lists_files_and_errors_witness :
  main Sample.rt Sample.example_world =
    Finished Sample.example_locals Sample.out_md Sample.example_report
      Sample.written_to 1 /\
  occurs_in (lit "**Genererad:** " ++ now Sample.example_world ++ nl)
    Sample.example_report /\
  (In Sample.error_line_3 (all_errors Sample.example_locals) ->
   occurs_in (lit "- " ++ Sample.error_line_3 ++ nl) Sample.example_report).
Proof.
  assert (main Sample.rt Sample.example_world =
          Finished Sample.example_locals Sample.out_md Sample.example_report
            Sample.written_to 1) as H by (vm_compute; reflexivity).
  split; [exact H|].
  destruct (report_lists_files_and_errors Sample.rt _ _ _ _ _ _ H)
    as (H1 & _ & H3 & _).
  exact (conj H1 (H3 Sample.error_line_3)).
Defined.

Lemma report_shows_every_finding_witness :
  main Sample.rt Sample.example_world =
    Finished Sample.example_locals Sample.out_md Sample.example_report
      Sample.written_to 1 /\
  In Sample.rec_x' (findings Sample.example_locals) /\
  exists t,
    write_finding Sample.rt Sample.rec_x' = Ret t /\
    occurs_in t Sample.example_report.
Proof.
  assert (main Sample.rt Sample.example_world =
          Finished Sample.example_locals Sample.out_md Sample.example_report
            Sample.written_to 1) as H by (vm_compute; reflexivity).
  assert (In Sample.rec_x' (findings Sample.example_locals)) as Hin
    by (left; reflexivity).
  exact (conj H (conj Hin
           (proj1 (report_shows_every_finding Sample.rt _ _ _ _ _ _ H)
              Sample.rec_x' Hin))).
Defined.

Lemma sample_same_jsonl_files :
  same_jsonl_files Sample.example_world Sample.world_more.
Proof.
  repeat split; try reflexivity.
  intros d n [<- | []]. reflexivity.
Defined.

Lemma other_files_are_ignored_witness :
  same_jsonl_files Sample.example_world Sample.world_more /\
  main Sample.rt Sample.example_world = main Sample.rt Sample.world_more.
Proof.
  exact (conj sample_same_jsonl_files
           (other_files_are_ignored Sample.rt _ _ sample_same_jsonl_files)).
Defined.

Lemma log_files_are_the_jsonl_names_witness :
  main Sample.rt Sample.example_world =
    Finished Sample.example_locals Sample.out_md Sample.example_report
      Sample.written_to 1 /\
  (In (lit "notes.txt") (log_files Sample.example_locals) <->
   In (lit "notes.txt")
     (listdir Sample.example_world
        (resolve Sample.example_world
           (nth 1 (argv Sample.example_world) []))) /\
   exists stem, lit "notes.txt" = stem ++ lit ".jsonl").
Proof.
  assert (main Sample.rt Sample.example_world =
          Finished Sample.example_locals Sample.out_md Sample.example_report
            Sample.written_to 1) as H by (vm_compute; reflexivity).
  exact (conj H
           (log_files_are_the_jsonl_names Sample.rt _ _ _ _ _ _
              (lit "notes.txt") H)).
Defined.






